(** * Pi5_OLED_Status: the status daemon of [Scripts/status.py]

    A shallow embedding of the render loop, the network enumeration, the
    threshold classifier, the rotation scheduler and the shutdown handler
    of [Scripts/status.py], with the properties of its specification.

    Conventions of the embedding:
    - Python integers are [Z]; [%] is written with its [ZeroDivisionError];
      list indexing with its [IndexError].
    - Finite Python numbers (ints and floats of the metrics and of the
      thresholds) are rationals [Q]; the order of two of them is the exact
      order of the numbers, as Python's comparison is.  Rounding of
      float results is not modelled.
    - Text is [string] (the ASCII range of Python's [str]).
    - Code that may raise returns a [result]; the outcome of every call
      that leaves the process (sub-process, PIL, the I2C device, the sleep)
      is read from an environment, so that each of them can fail. *)

From Stdlib Require Import ZArith QArith Ascii String Bool Lia.
From stdpp Require Import base list strings gmap.

Local Open Scope string_scope.
Local Open Scope list_scope.

(** ** Python exceptions and results *)

Module Py.

(** The exception classes that this program meets.  [SystemExit],
    [KeyboardInterrupt] and [GeneratorExit] derive from [BaseException]
    only; the others derive from [Exception]. *)
Inductive exn : Type :=
  | ZeroDivisionError
  | IndexError
  | KeyError
  | ValueError
  | TypeError
  | AttributeError
  | UnicodeDecodeError
  | OSError
  | CalledProcessError
  | MemoryError
  | RuntimeError
  | SystemExit (code : Z)
  | KeyboardInterrupt
  | GeneratorExit.

(** [isinstance(e, Exception)] *)
Definition is_Exception (e : exn) : bool :=
  match e with
  | SystemExit _ | KeyboardInterrupt | GeneratorExit => false
  | _ => true
  end.

(** The two handler clauses of the program: a bare [except:] and
    [except Exception]. *)
Inductive handler : Type :=
  | ExceptBare
  | ExceptException.

Definition catches (h : handler) (e : exn) : bool :=
  match h with
  | ExceptBare => true
  | ExceptException => is_Exception e
  end.

Inductive result (A : Type) : Type :=
  | Ok (a : A)
  | Raise (e : exn).
Arguments Ok {A} a.
Arguments Raise {A} e.

Definition bind {A B} (r : result A) (k : A -> result B) : result B :=
  match r with
  | Ok a => k a
  | Raise e => Raise e
  end.

(** [a % b] on integers: the sign of the result follows the divisor, as
    [Z.modulo] does; a zero divisor raises. *)
Definition mod_ (a b : Z) : result Z :=
  if (b =? 0)%Z then Raise ZeroDivisionError else Ok (a mod b)%Z.

(** [l[i]]: a negative index counts from the end; out of range raises. *)
Definition getitem {A} (l : list A) (i : Z) : result A :=
  let n := Z.of_nat (length l) in
  let j := if (i <? 0)%Z then (i + n)%Z else i in
  if ((0 <=? j) && (j <? n))%Z
  then match nth_error l (Z.to_nat j) with
       | Some x => Ok x
       | None => Raise IndexError
       end
  else Raise IndexError.

(** Truth value of a list: [if l:]. *)
Definition truthy {A} (l : list A) : bool :=
  match l with
  | [] => false
  | _ :: _ => true
  end.

End Py.

Import Py.

(** [result] with stdpp's monad notation [x ← r; k]. *)
#[global] Instance result_ret : MRet result := @Ok.
#[global] Instance result_bind : MBind result :=
  fun A B k r => Py.bind r k.

(** ** Python string methods *)

Module PyStr.

(** [str.isspace] on one ASCII character: TAB, LF, VT, FF, CR, the four
    separators FS GS RS US, and the space. *)
Definition is_space (c : ascii) : bool :=
  let n := N_of_ascii c in
  (((9 <=? n) && (n <=? 13)) || ((28 <=? n) && (n <=? 32)))%N.

(** [s.startswith(p)] *)
Definition startswith (s p : string) : bool := String.prefix p s.

(** [s.lstrip()] *)
Fixpoint lstrip (s : string) : string :=
  match s with
  | EmptyString => EmptyString
  | String c s' => if is_space c then lstrip s' else s
  end.

(** [s.rstrip(chars)], the set of characters given by a predicate. *)
Fixpoint rstrip_by (p : ascii -> bool) (s : string) : string :=
  match s with
  | EmptyString => EmptyString
  | String c s' =>
      match rstrip_by p s' with
      | EmptyString => if p c then EmptyString else String c EmptyString
      | r => String c r
      end
  end.

(** [s.rstrip()] and [s.rstrip('G')] *)
Definition rstrip (s : string) : string := rstrip_by is_space s.
Definition rstrip_char (ch : ascii) (s : string) : string :=
  rstrip_by (Ascii.eqb ch) s.

(** [s.strip()] *)
Definition strip (s : string) : string := rstrip (lstrip s).

(** [s.split(sep)] for a one-character separator: never empty, and [""]
    gives [[""]]. *)
Fixpoint split_on (sep : ascii) (s : string) : list string :=
  match s with
  | EmptyString => [EmptyString]
  | String c s' =>
      if Ascii.eqb c sep then EmptyString :: split_on sep s'
      else match split_on sep s' with
           | w :: ws => String c w :: ws
           | [] => [String c EmptyString]
           end
  end.

(** [s.split()]: the maximal runs of non-space characters. *)
Fixpoint split (s : string) : list string :=
  match s with
  | EmptyString => []
  | String c s' =>
      if is_space c then split s'
      else match s' with
           | EmptyString => [String c EmptyString]
           | String c' _ =>
               if is_space c' then String c EmptyString :: split s'
               else match split s' with
                    | w :: ws => String c w :: ws
                    | [] => [String c EmptyString]
                    end
           end
  end.

(** Truth value of a string: [if line:]. *)
Definition truthy (s : string) : bool :=
  match s with
  | EmptyString => false
  | String _ _ => true
  end.

End PyStr.

(** ** Network enumeration: [get_network_info] *)

(** A network fact, the pair [(kind, value)] of the source. *)
Definition fact : Type := string * string.

(** [skip_prefixes] of [get_network_info]. *)
Definition skip_prefixes : list string :=
  ["docker"; "br-"; "veth"; "tailscale"; "tun"; "tap"].

(** The body of the [for line in output.split('\n')] loop: the facts that
    one line appends to [info_list]. *)
Definition line_facts (line : string) : list fact :=
  if PyStr.truthy line then
    match PyStr.split line with
    | interface :: ip :: _ =>
        if existsb (PyStr.startswith interface) skip_prefixes then []
        else if PyStr.startswith interface "eth" || PyStr.startswith interface "en"
             then [("lan", ip)]
        else if PyStr.startswith interface "wlan" || PyStr.startswith interface "wl"
             then [("wifi", ip)]
        else []
    | _ => []
    end
  else [].

(** [get_network_info()].  [HOSTNAME] is the global read at start-up;
    [cmd] is the outcome of [subprocess.check_output(cmd, shell=True)
    .decode('utf-8')]: the text of the enumeration, or the exception it
    raised.  The hostname is appended before the [try]; the bare
    [except: pass] keeps what was appended so far. *)
Definition get_network_info (HOSTNAME : string) (cmd : result string) : list fact :=
  let info_list := [("hostname", HOSTNAME)] in
  match cmd with
  | Ok raw =>
      let output := PyStr.strip raw in
      info_list ++ flat_map line_facts (PyStr.split_on "010"%char output)
  | Raise _ => info_list
  end.

(** ** Threshold classifier: [get_icon_for_value] *)

(** [value >= threshold] on finite Python numbers. *)
Definition ge (value threshold : Q) : bool := Qle_bool threshold value.

Definition get_icon_for_value (base_name : string) (value threshold : Q) : string :=
  if ge value threshold then base_name +:+ "_warn"
  else base_name +:+ "_normal".

(** ** Rotation scheduler: the globals [rotation_index], [loop_counter] *)

Record rotation : Type := Rotation {
  rotation_index : Z;
  loop_counter : Z
}.

(** Start-up values of the two globals. *)
Definition rotation_init : rotation :=
  {| rotation_index := 0; loop_counter := 0 |}.

(** The rotation step of the loop: [if loop_counter >= ROTATION_INTERVAL:
    rotation_index = (rotation_index + 1) % len(network_info);
    loop_counter = 0]. *)
Definition rotate (ROTATION_INTERVAL : Z) (network_info : list fact)
    (r : rotation) : result rotation :=
  if (loop_counter r >=? ROTATION_INTERVAL)%Z then
    i ← mod_ (rotation_index r + 1) (Z.of_nat (length network_info));
    Ok {| rotation_index := i; loop_counter := 0 |}
  else Ok r.

(** The fact selection of the loop: [if network_info: info_type,
    info_value = network_info[rotation_index % len(network_info)]
    else: info_type, info_value = "hostname", "No network"]. *)
Definition current_info (network_info : list fact) (r : rotation) : result fact :=
  if Py.truthy network_info then
    i ← mod_ (rotation_index r) (Z.of_nat (length network_info));
    getitem network_info i
  else Ok ("hostname", "No network").

(** [loop_counter += 1], the last statement of the tick body. *)
Definition count_tick (r : rotation) : rotation :=
  {| rotation_index := rotation_index r; loop_counter := loop_counter r + 1 |}.

(** The fact that a tick displays: the rotation step, then the selection,
    as the loop runs them in this order on the same [network_info]. *)
Definition displayed_info (ROTATION_INTERVAL : Z) (network_info : list fact)
    (r : rotation) : result fact :=
  r' ← rotate ROTATION_INTERVAL network_info r;
  current_info network_info r'.

(** The effect on the two globals of one tick whose body runs to its
    end: the rotation step at the start and the increment at the end. *)
Definition rotation_tick (ROTATION_INTERVAL : Z) (network_info : list fact)
    (r : rotation) : result rotation :=
  r' ← rotate ROTATION_INTERVAL network_info r;
  Ok (count_tick r').

(** [n] such ticks in a row, over the same fact list. *)
Fixpoint rotation_ticks (n : nat) (ROTATION_INTERVAL : Z)
    (network_info : list fact) (r : rotation) : result rotation :=
  match n with
  | O => Ok r
  | S k =>
      r' ← rotation_tick ROTATION_INTERVAL network_info r;
      rotation_ticks k ROTATION_INTERVAL network_info r'
  end.

(** The reference state machine, in the words of the specification: if
    [ticks_since_rotate >= rotation_interval], the cursor becomes
    [(cursor + 1) mod max(1, len(facts))] and [ticks_since_rotate] is
    reset to 0; else [ticks_since_rotate] is incremented. *)
Definition spec_rotation_step (rotation_interval : Z) (facts : list fact)
    (r : rotation) : rotation :=
  if (loop_counter r >=? rotation_interval)%Z then
    {| rotation_index :=
         (rotation_index r + 1) mod Z.max 1 (Z.of_nat (length facts));
       loop_counter := 0 |}
  else {| rotation_index := rotation_index r;
          loop_counter := loop_counter r + 1 |}.

(** ** Temperature source *)

(** What [head -1] keeps of its input: the first line, with its newline. *)
Fixpoint head_1 (s : string) : string :=
  match s with
  | EmptyString => EmptyString
  | String c s' =>
      if Ascii.eqb c "010" then String c EmptyString else String c (head_1 s')
  end.

(** What the pipeline [cat /sys/class/thermal/thermal_zone*/temp
    2>/dev/null | head -1] prints.  [zone] is the text that [cat] could
    read from the thermal zone files, [None] when it could read none: its
    complaint goes to [/dev/null], [head] sees an empty input and prints
    nothing, and the status of the pipeline is that of [head]. *)
Definition thermal_pipeline (zone : option string) : string :=
  match zone with
  | Some content => head_1 content
  | None => EmptyString
  end.

Section Metrics.

(** The built-in [float(s)] on text: the number, or the exception that
    it raises ([ValueError]). *)
Variable float : string -> result Q.

(** Load average: [try: load_value = float(load_raw) except: load_value
    = 0.0], after the [strip] of the text of the command. *)
Definition load_of (load_cmd : string) : Q :=
  let load_raw := PyStr.strip load_cmd in
  match float load_raw with
  | Ok v => v
  | Raise _ => 0%Q
  end.

(** Temperature: [try: temp_value = float(temp_raw) / 1000 except:
    temp_value = 0.0], after the [strip] of the text of the command. *)
Definition temp_of (temp_cmd : string) : Q :=
  let temp_raw := PyStr.strip temp_cmd in
  match (v ← float temp_raw; Ok (v / 1000)%Q) with
  | Ok v => v
  | Raise _ => 0%Q
  end.

(** The temperature collection of the loop, from the call of the
    sub-process on: [temp_cmd] is the outcome of [subprocess.check_output
    (...).decode('utf-8')], which is outside the [try]. *)
Definition temperature (temp_cmd : result string) : result Q :=
  out ← temp_cmd;
  Ok (temp_of out).

(** Memory: the three fields of the text of the command, the third as a
    number; the bare [except] gives ["0"], ["0"], [0]. *)
Definition mem_of (mem_cmd : string) : string * string * Q :=
  let mem_parts := PyStr.split (PyStr.strip mem_cmd) in
  match (mem_used_gb ← getitem mem_parts 0;
         mem_total_gb ← getitem mem_parts 1;
         third ← getitem mem_parts 2;
         mem_percent ← float third;
         Ok (mem_used_gb, mem_total_gb, mem_percent)) with
  | Ok v => v
  | Raise _ => ("0", "0", 0%Q)
  end.

(** Disk: the same with the unit suffixes stripped. *)
Definition disk_of (disk_cmd : string) : string * string * Q :=
  let disk_parts := PyStr.split (PyStr.strip disk_cmd) in
  match (first ← getitem disk_parts 0;
         second ← getitem disk_parts 1;
         third ← getitem disk_parts 2;
         disk_percent ← float (PyStr.rstrip_char "%" third);
         Ok (PyStr.rstrip_char "G" first, PyStr.rstrip_char "G" second,
             disk_percent)) with
  | Ok v => v
  | Raise _ => ("0", "0", 0%Q)
  end.

End Metrics.

(** ** Configuration, canvas and device *)

(** The module-level constants that the loop and the handler read. *)
Record config : Type := Config {
  ROTATION_INTERVAL : Z;
  LOOPTIME : Q;
  HOSTNAME : string;
  ICONS_AVAILABLE : bool;
  ICONS : gmap string string;
  ICON_WIDTH : Z;
  ICON_WIDTH_LARGE : Z;
  load_warn : Q;
  temp_warn : Q;
  mem_warn : Q;
  disk_warn : Q
}.

Inductive font_id : Type := font | font_large | icon_font | icon_font_large.

(** One [draw.text((x, y), text, font=f, fill=255)]. *)
Record text_op : Type := Text {
  text_x : Z;
  text_y : Z;
  text_str : string;
  text_font : font_id
}.

(** The image: the texts drawn since it was last filled with black, in
    drawing order. *)
Definition canvas : Type := list text_op.

(** The places where the program leaves the interpreter, by the line of
    the source: each can raise, and the places of the loop can be
    interrupted by a termination signal. *)
Inductive site : Type :=
  | Rect255 | Ip179 | Load272 | Temp279 | Mem286 | Disk298
  | Line1 | Line2 | Line3 | Line4 | Image356 | Show357 | Sleep365
  | Rect217 | Text220 | Text224 | Image229 | Show230.

#[global] Instance site_eq_dec : EqDecision site.
Proof. solve_decision. Defined.

(** What the outside does during one iteration of the loop. *)
Record env : Type := Env {
  fails : site -> option exn;   (* the exception that a place raises *)
  output : site -> string;      (* the text that a command prints *)
  signal : option site          (* where SIGTERM or SIGINT arrives *)
}.

Record world : Type := World {
  rot : rotation;          (* rotation_index, loop_counter *)
  image : canvas;          (* the PIL image behind [draw] *)
  oled_buffer : canvas;    (* the buffer filled by [oled.image] *)
  shown : list canvas;     (* the frames put on the panel by [oled.show],
                              the last one first *)
  slept : list Q           (* the [time.sleep] calls that returned *)
}.

(** Statements: a state transformer that returns or raises. *)
Definition action (A : Type) : Type := world -> result A * world.

Definition aret {A} (a : A) : action A := fun w => (Ok a, w).
Definition araise {A} (e : exn) : action A := fun w => (Raise e, w).
Definition abind {A B} (m : action A) (k : A -> action B) : action B :=
  fun w => match m w with
           | (Ok a, w') => k a w'
           | (Raise e, w') => (Raise e, w')
           end.
Definition lift {A} (r : result A) : action A := fun w => (r, w).

(** [try: body except <h>: handler_body] *)
Definition try_ {A} (h : handler) (body handler_body : action A) : action A :=
  fun w => match body w with
           | (Ok a, w') => (Ok a, w')
           | (Raise e, w') =>
               if catches h e then handler_body w' else (Raise e, w')
           end.

Definition set_rot (r : rotation) : action unit :=
  fun w => (Ok tt, {| rot := r; image := image w; oled_buffer := oled_buffer w;
                      shown := shown w; slept := slept w |}).
Definition set_image (c : canvas) : action unit :=
  fun w => (Ok tt, {| rot := rot w; image := c; oled_buffer := oled_buffer w;
                      shown := shown w; slept := slept w |}).
Definition set_buffer (c : canvas) : action unit :=
  fun w => (Ok tt, {| rot := rot w; image := image w; oled_buffer := c;
                      shown := shown w; slept := slept w |}).
Definition push_shown (c : canvas) : action unit :=
  fun w => (Ok tt, {| rot := rot w; image := image w; oled_buffer := oled_buffer w;
                      shown := c :: shown w; slept := slept w |}).
Definition push_slept (t : Q) : action unit :=
  fun w => (Ok tt, {| rot := rot w; image := image w; oled_buffer := oled_buffer w;
                      shown := shown w; slept := t :: slept w |}).
Definition get {A} (f : world -> A) : action A := fun w => (Ok (f w), w).

#[global] Instance action_ret : MRet action := @aret.
#[global] Instance action_bind : MBind action := fun A B k m => abind m k.

(** ** The shutdown handler and the render loop *)

Section Loop.

Variable float : string -> result Q.

(** [f"{x:.<digits>f}"] *)
Variable format_f : nat -> Q -> string.

Variable cfg : config.

(** What the outside does during the iteration at hand. *)
Variable E : env.

(** A place reached while the handler runs: it returns or raises. *)
Definition call_in_handler (s : site) : action unit :=
  fun w => match fails E s with
           | Some e => (Raise e, w)
           | None => (Ok tt, w)
           end.

(** [draw.rectangle((0, 0, oled.width, oled.height), outline=0, fill=0)] *)
Definition fill_black (call : site -> action unit) (s : site) : action unit :=
  call s;; set_image [].

(** [draw.text((x, y), str, font=f, fill=255)] *)
Definition draw_text (call : site -> action unit) (s : site)
    (x y : Z) (str : string) (f : font_id) : action unit :=
  call s;;
  img ← get image;
  set_image (img ++ [Text x y str f]).

(** [oled.image(image)] and [oled.show()] *)
Definition oled_image (call : site -> action unit) (s : site) : action unit :=
  call s;;
  img ← get image;
  set_buffer img.
Definition oled_show (call : site -> action unit) (s : site) : action unit :=
  call s;;
  buf ← get oled_buffer;
  push_shown buf.

(** [ICONS[key]] *)
Definition icons_getitem (key : string) : result string :=
  match ICONS cfg !! key with
  | Some glyph => Ok glyph
  | None => Raise KeyError
  end.

Definition show_offline_screen : action unit :=
  fill_black call_in_handler Rect217;;
  draw_text call_in_handler Text220 10 8 (HOSTNAME cfg) font;;
  (if ICONS_AVAILABLE cfg then
     glyph ← lift (icons_getitem "offline");
     draw_text call_in_handler Text224 10 32 glyph icon_font_large;;
     draw_text call_in_handler Text224 (10 + ICON_WIDTH_LARGE cfg) 32
       "OFFLINE" font_large
   else
     draw_text call_in_handler Text224 10 32 "OFFLINE" font_large);;
  oled_image call_in_handler Image229;;
  oled_show call_in_handler Show230.

(** [signal_handler(sig, frame)]: the offline screen inside a bare
    [except], then [sys.exit(0)]. *)
Definition signal_handler : action unit :=
  try_ ExceptBare show_offline_screen (aret tt);;
  araise (SystemExit 0).

(** A place reached by the loop.  When the signal arrives there, the
    interpreter runs [signal_handler] in the main thread, and what the
    handler raises is raised at this place. *)
Definition call (s : site) : action unit :=
  fun w => if decide (signal E = Some s) then signal_handler w
           else call_in_handler s w.

(** [subprocess.check_output(cmd, shell=True).decode('utf-8')] *)
Definition check_output (s : site) : action string :=
  call s;; aret (output E s).

(** The call [get_network_info()] of the loop: the sub-process runs
    inside the function's own [try]. *)
Definition get_network_info_call : action (list fact) :=
  fun w => let '(cmd, w') := check_output Ip179 w in
           (Ok (get_network_info (HOSTNAME cfg) cmd), w').

(** [draw_icon(x, y, icon_key)] *)
Definition draw_icon (s : site) (x y : Z) (icon_key : string) : action Z :=
  if ICONS_AVAILABLE cfg then
    match ICONS cfg !! icon_key with
    | Some glyph => draw_text call s x y glyph icon_font;; aret (ICON_WIDTH cfg)
    | None => aret 0%Z
    end
  else aret 0%Z.

(** One line of the frame: [x = 0; if ICONS_AVAILABLE: x += draw_icon(x,
    y, key); draw.text((x, y), str, font=font, fill=255)]. *)
Definition draw_line (s : site) (y : Z) (icon_key str : string) : action unit :=
  x ← (if ICONS_AVAILABLE cfg then
         width ← draw_icon s 0 y icon_key; aret (0 + width)%Z
       else aret 0%Z);
  draw_text call s x y str font.

(** The body of the [try] from the load average on: the four metrics,
    the four lines of the frame for the fact that was selected, and the
    commit to the device. *)
Definition render (info_type info_value : string) : action unit :=
  load_cmd ← check_output Load272;
  let load_value := load_of float load_cmd in
  temp_cmd ← check_output Temp279;
  let temp_value := temp_of float temp_cmd in
  mem_cmd ← check_output Mem286;
  let '(mem_used_gb, mem_total_gb, mem_percent) := mem_of float mem_cmd in
  disk_cmd ← check_output Disk298;
  let '(disk_used, disk_total, disk_percent) := disk_of float disk_cmd in
  let line1_y := 0%Z in
  let line2_y := 16%Z in
  let line3_y := 32%Z in
  let line4_y := 48%Z in
  draw_line Line1 line1_y info_type info_value;;
  let load_icon := get_icon_for_value "load" load_value (load_warn cfg) in
  draw_line Line2 line2_y load_icon (format_f 2 load_value);;
  let temp_icon := get_icon_for_value "temp" temp_value (temp_warn cfg) in
  let temp_str := format_f 0 temp_value +:+ "C" in
  (if ICONS_AVAILABLE cfg then
     let temp_x := 75%Z in
     draw_icon Line2 temp_x line2_y temp_icon;;
     draw_text call Line2 (temp_x + ICON_WIDTH cfg) line2_y temp_str font
   else draw_text call Line2 80 line2_y temp_str font);;
  let mem_icon := get_icon_for_value "mem" mem_percent (mem_warn cfg) in
  let mem_display :=
    mem_used_gb +:+ "/" +:+ mem_total_gb +:+ "GB " +:+ format_f 0 mem_percent +:+ "%" in
  draw_line Line3 line3_y mem_icon mem_display;;
  let disk_icon := get_icon_for_value "disk" disk_percent (disk_warn cfg) in
  let disk_display :=
    disk_used +:+ "/" +:+ disk_total +:+ "GB " +:+ format_f 0 disk_percent +:+ "%" in
  draw_line Line4 line4_y disk_icon disk_display;;
  oled_image call Image356;;
  oled_show call Show357.

(** The body of the [try] of the loop. *)
Definition tick_body : action unit :=
  fill_black call Rect255;;
  network_info ← get_network_info_call;
  r ← get rot;
  r' ← lift (rotate (ROTATION_INTERVAL cfg) network_info r);
  set_rot r';;
  '(info_type, info_value) ← lift (current_info network_info r');
  render info_type info_value;;
  r ← get rot;
  set_rot (count_tick r).

(** [time.sleep(LOOPTIME)]: a negative length raises [ValueError]; the
    sleep itself only ends early when the signal arrives. *)
Definition sleep : action unit :=
  if Qle_bool 0 (LOOPTIME cfg) then
    fun w => if decide (signal E = Some Sleep365) then signal_handler w
             else push_slept (LOOPTIME cfg) w
  else araise ValueError.

(** One iteration of [while True]: the body inside [try ... except
    Exception: pass], then the sleep. *)
Definition iteration : action unit :=
  try_ ExceptException tick_body (aret tt);;
  sleep.

End Loop.

(** What became of the process. *)
Inductive process : Type :=
  | Running (w : world)                 (* still inside [while True] *)
  | Exited (status : Z) (w : world)     (* an uncaught [SystemExit] *)
  | Traceback (e : exn) (w : world).    (* any other uncaught exception *)

(** The loop over the first iterations, one [env] for each. *)
Fixpoint main_loop (float : string -> result Q) (format_f : nat -> Q -> string)
    (cfg : config) (Es : list env) (w : world) : process :=
  match Es with
  | [] => Running w
  | E :: Es' =>
      match iteration float format_f cfg E w with
      | (Ok _, w') => main_loop float format_f cfg Es' w'
      | (Raise (SystemExit status), w') => Exited status w'
      | (Raise e, w') => Traceback e w'
      end
  end.

(** The state when the loop is entered: both globals 0, the image black,
    the panel cleared by [oled.fill(0); oled.show()]. *)
Definition world_init : world :=
  {| rot := rotation_init; image := []; oled_buffer := [];
     shown := [[]]; slept := [] |}.

(** ** Concrete builtins and fixtures *)

Module Fixtures.

(** A fragment of the built-in [float]: an optional sign, digits, and an
    optional fraction, with surrounding white space; anything else is a
    [ValueError]. *)
Definition digit_of (c : ascii) : option Z :=
  let n := Z.of_N (N_of_ascii c) in
  if ((48 <=? n) && (n <=? 57))%Z then Some (n - 48)%Z else None.

(** Digits to a pair (value, number of digits). *)
Fixpoint digits (s : string) (acc : Z) (len : nat) : option (Z * nat) :=
  match s with
  | EmptyString => Some (acc, len)
  | String c s' =>
      match digit_of c with
      | Some d => digits s' (10 * acc + d)%Z (S len)
      | None => None
      end
  end.

(** The text before and after the first dot. *)
Fixpoint cut_dot (s : string) : string * option string :=
  match s with
  | EmptyString => (EmptyString, None)
  | String c s' =>
      if Ascii.eqb c "." then (EmptyString, Some s')
      else let '(a, b) := cut_dot s' in (String c a, b)
  end.

Definition unsigned_float (s : string) : result Q :=
  let '(ip, fp) := cut_dot s in
  match digits ip 0 0, fp with
  | Some (i, S _), None => Ok (inject_Z i)
  | Some (i, li), Some f =>
      match digits f 0 0 with
      | Some (fv, lf) =>
          if (Nat.eqb (li + lf) 0) then Raise ValueError
          else Ok (inject_Z i + inject_Z fv / inject_Z (10 ^ Z.of_nat lf))%Q
      | None => Raise ValueError
      end
  | _, _ => Raise ValueError
  end.

Definition float (s : string) : result Q :=
  match PyStr.strip s with
  | String "-" s' => v ← unsigned_float s'; Ok (- v)%Q
  | String "+" s' => unsigned_float s'
  | s' => unsigned_float s'
  end.

(** Decimal text of a natural number. *)
Definition digit_char (d : Z) : ascii := ascii_of_N (Z.to_N (48 + d)).

Fixpoint decimal_fuel (fuel : nat) (n : Z) (acc : string) : string :=
  match fuel with
  | O => acc
  | S k =>
      let acc' := String (digit_char (n mod 10)) acc in
      if (n / 10 =? 0)%Z then acc' else decimal_fuel k (n / 10)%Z acc'
  end.

Definition decimal (n : Z) : string :=
  decimal_fuel (S (Z.to_nat (Z.log2 n))) n EmptyString.

Fixpoint zeros (n : nat) : string :=
  match n with
  | O => EmptyString
  | S k => String "0" (zeros k)
  end.

(** [f"{x:.<d>f}"]: [x] rounded to [d] decimals, halves to even. *)
Definition format_f (d : nat) (x : Q) : string :=
  let scale := (10 ^ Z.of_nat d)%Z in
  let num := (Z.abs (Qnum x) * scale)%Z in
  let den := Z.pos (Qden x) in
  let q := (num / den)%Z in
  let twice := (2 * (num mod den))%Z in
  let rounded :=
    if (twice <? den)%Z then q
    else if (den <? twice)%Z then (q + 1)%Z
    else if Z.even q then q else (q + 1)%Z in
  let int_part := decimal (rounded / scale) in
  let frac := decimal (rounded mod scale) in
  let sign := if ((Qnum x <? 0) && negb (rounded =? 0))%Z then "-" else "" in
  match d with
  | O => sign +:+ int_part
  | _ => sign +:+ int_part +:+ "." +:+
         zeros (d - String.length frac) +:+ frac
  end.

(** The default configuration of [load_config], with a host name. *)
Definition default_icons : gmap string string :=
  list_to_map
    [("hostname", "H"); ("wifi", "W"); ("lan", "L"); ("offline", "O");
     ("load_normal", "l"); ("load_warn", "!"); ("temp_normal", "t");
     ("temp_warn", "!"); ("mem_normal", "m"); ("mem_warn", "!");
     ("disk_normal", "d"); ("disk_warn", "!")].

Definition default_config (hostname : string) (icons : bool) : config :=
  {| ROTATION_INTERVAL := 3; LOOPTIME := 1; HOSTNAME := hostname;
     ICONS_AVAILABLE := icons; ICONS := default_icons;
     ICON_WIDTH := if icons then 14 + 2 else 0;
     ICON_WIDTH_LARGE := 24 + 2;
     load_warn := 2; temp_warn := 70; mem_warn := 80; disk_warn := 80 |}.

Definition newline : string := String "010" EmptyString.

(** A quiet iteration: every command answers, nothing raises, no signal. *)
Definition quiet_output (s : site) : string :=
  match s with
  | Ip179 => EmptyString
  | Load272 => "0.42" +:+ newline
  | Temp279 => "45000" +:+ newline
  | Mem286 => "1.2 4.0 30"
  | Disk298 => "5G 32G 16%" +:+ newline
  | _ => EmptyString
  end.

Definition quiet : env :=
  {| fails := fun _ => None; output := quiet_output; signal := None |}.

(** The same iteration with a termination signal at one place. *)
Definition signalled (s : site) : env :=
  {| fails := fun _ => None; output := quiet_output; signal := Some s |}.

(** The same iteration with one place that raises. *)
Definition failing (s : site) (e : exn) : env :=
  {| fails := fun s' => if decide (s' = s) then Some e else None;
     output := quiet_output; signal := None |}.

(** An iteration with one place that raises and a termination signal. *)
Definition failing_signalled (s : site) (e : exn) (at_ : site) : env :=
  {| fails := fun s' => if decide (s' = s) then Some e else None;
     output := quiet_output; signal := Some at_ |}.

(** Four facts, as a host with two wired and one wireless address has. *)
Definition four_facts : list fact :=
  [("hostname", "pi"); ("lan", "10.0.0.2"); ("lan", "10.0.0.3");
   ("wifi", "10.0.0.4")].

End Fixtures.

(** ** The enumeration as the command prints it *)

Fixpoint all_chars (p : ascii -> bool) (s : string) : bool :=
  match s with
  | EmptyString => true
  | String c s' => p c && all_chars p s'
  end.

(** An interface name or an address as [awk] prints it: not empty and
    free of white space. *)
Definition is_token (s : string) : bool :=
  PyStr.truthy s && all_chars (fun c => negb (PyStr.is_space c)) s.

(** One enumerated interface: its name and its IPv4 address. *)
Definition interface_entry : Type := string * string.

Definition well_formed (entry : interface_entry) : Prop :=
  is_token (fst entry) = true /\ is_token (snd entry) = true.

(** The text of the enumeration: one line [name address] for each
    interface, each ended by a newline. *)
Definition enumeration_line (entry : interface_entry) : string :=
  fst entry +:+ " " +:+ snd entry.

Fixpoint enumeration_text (entries : list interface_entry) : string :=
  match entries with
  | [] => EmptyString
  | entry :: rest =>
      enumeration_line entry +:+ String "010" (enumeration_text rest)
  end.

(** The facts that one interface contributes: none for the skipped
    prefixes, [lan] for the names in [eth] or [en], [wifi] for the names
    in [wlan] or [wl], none for any other name. *)
Definition interface_facts (entry : interface_entry) : list fact :=
  let '(interface, ip) := entry in
  if existsb (PyStr.startswith interface) skip_prefixes then []
  else if PyStr.startswith interface "eth" || PyStr.startswith interface "en"
       then [("lan", ip)]
  else if PyStr.startswith interface "wlan" || PyStr.startswith interface "wl"
       then [("wifi", ip)]
  else [].

(** ** Vocabulary of the loop properties *)

(** An iteration without a termination signal, in which whatever is
    raised is an instance of [Exception]. *)
Definition ordinary (E : env) : Prop :=
  signal E = None /\
  forall s e, fails E s = Some e -> is_Exception e = true.

(** A statement that leaves the record of the sleeps alone and raises
    nothing but instances of [Exception]. *)
Definition contained {A} (m : action A) : Prop :=
  forall w,
    slept (snd (m w)) = slept w /\
    match fst (m w) with
    | Ok _ => True
    | Raise e => is_Exception e = true
    end.

(** A statement that leaves the two globals of the rotation alone. *)
Definition keeps_rot {A} (m : action A) : Prop :=
  forall w, rot (snd (m w)) = rot w.

(** The farewell frame of [show_offline_screen]. *)
Definition offline_frame (cfg : config) (glyph : string) : canvas :=
  if ICONS_AVAILABLE cfg then
    [Text 10 8 (HOSTNAME cfg) font;
     Text 10 32 glyph icon_font_large;
     Text (10 + ICON_WIDTH_LARGE cfg) 32 "OFFLINE" font_large]
  else
    [Text 10 8 (HOSTNAME cfg) font;
     Text 10 32 "OFFLINE" font_large].

(** ** Vocabulary of the frame properties *)

(** The world after some more texts are drawn on the image. *)
Definition draw_on (w : world) (ops : canvas) : world :=
  {| rot := rot w; image := image w ++ ops; oled_buffer := oled_buffer w;
     shown := shown w; slept := slept w |}.

(** A statement that only draws: what it returns or raises and the
    texts that it adds to the image are the same in every world, and it
    changes nothing else. *)
Definition draws {A} (m : action A) : Prop :=
  exists r ops, forall w, m w = (r, draw_on w ops).

(** A statement that draws and then sends the image to the panel: when
    it returns, the panel has got one more frame, the image as it is
    then; when it raises, the panel has got none. *)
Definition commits (m : action unit) : Prop :=
  exists r ops, forall w,
    fst (m w) = r /\
    rot (snd (m w)) = rot w /\
    slept (snd (m w)) = slept w /\
    image (snd (m w)) = image w ++ ops /\
    match r with
    | Ok _ => shown (snd (m w)) = (image w ++ ops) :: shown w
    | Raise _ => shown (snd (m w)) = shown w
    end.

(** ** Configuration file: [load_config] *)

Module Config.

(** A hashable Python value, as the key of a dictionary. *)
Inductive key : Type :=
  | KNone
  | KBool (b : bool)
  | KNum (q : Q)
  | KStr (s : string).

(** The values that [json.load] returns and that the configuration
    holds.  A dictionary keeps its items in insertion order. *)
#[local] Set Warnings "-register-all".
Inductive value : Type :=
  | VNone
  | VBool (b : bool)
  | VNum (q : Q)
  | VStr (s : string)
  | VList (items : list value)
  | VDict (items : list (key * value)).

Definition dict : Type := list (key * value).

(** Numbers as keys: [True] and [1] and [1.0] are the same key. *)
Definition key_num (k : key) : option Q :=
  match k with
  | KBool b => Some (if b then 1 else 0)%Q
  | KNum q => Some q
  | KNone | KStr _ => None
  end.

(** Equality of keys, as hashing and [==] decide it. *)
Definition key_eqb (a b : key) : bool :=
  match a, b with
  | KNone, KNone => true
  | KStr s, KStr t => String.eqb s t
  | _, _ =>
      match key_num a, key_num b with
      | Some p, Some q => Qeq_bool p q
      | _, _ => false
      end
  end.

(** The item stored under a key, if any. *)
Fixpoint dict_get (d : dict) (k : key) : option value :=
  match d with
  | [] => None
  | (k', v) :: d' => if key_eqb k' k then Some v else dict_get d' k
  end.

(** [d[k] = v]: an existing key keeps its place and its key object. *)
Fixpoint dict_set (d : dict) (k : key) (v : value) : dict :=
  match d with
  | [] => [(k, v)]
  | (k', v') :: d' =>
      if key_eqb k' k then (k', v) :: d' else (k', v') :: dict_set d' k v
  end.

(** [hash(v)]: lists and dictionaries are unhashable. *)
Definition as_key (v : value) : result key :=
  match v with
  | VNone => Ok KNone
  | VBool b => Ok (KBool b)
  | VNum q => Ok (KNum q)
  | VStr s => Ok (KStr s)
  | VList _ | VDict _ => Raise TypeError
  end.

Definition of_key (k : key) : value :=
  match k with
  | KNone => VNone
  | KBool b => VBool b
  | KNum q => VNum q
  | KStr s => VStr s
  end.

(** One element of a sequence given to [dict.update]: it must be
    iterable and of length two.  A string of two characters and a
    dictionary of two keys are such elements. *)
Definition as_pair (item : value) : result (value * value) :=
  match item with
  | VList [a; b] => Ok (a, b)
  | VList _ => Raise ValueError
  | VStr (String a (String b EmptyString)) =>
      Ok (VStr (String a EmptyString), VStr (String b EmptyString))
  | VStr _ => Raise ValueError
  | VDict [(k1, _); (k2, _)] => Ok (of_key k1, of_key k2)
  | VDict _ => Raise ValueError
  | VNone | VBool _ | VNum _ => Raise TypeError
  end.

(** [d.update(other)] with a sequence of pairs. *)
Fixpoint update_pairs (d : dict) (items : list value) : result dict :=
  match items with
  | [] => Ok d
  | item :: rest =>
      '(a, b) ← as_pair item;
      k ← as_key a;
      update_pairs (dict_set d k b) rest
  end.

(** [d.update(other)]: a dictionary is merged key by key; a list is
    taken as a sequence of pairs; a string is a sequence of its
    characters, none of which is a pair; anything else is not iterable. *)
Definition dict_update (d : dict) (other : value) : result dict :=
  match other with
  | VDict items => Ok (fold_left (fun acc kv => dict_set acc (fst kv) (snd kv)) items d)
  | VList items => update_pairs d items
  | VStr EmptyString => Ok d
  | VStr _ => Raise ValueError
  | VNone | VBool _ | VNum _ => Raise TypeError
  end.

(** [sub in s] on strings. *)
Fixpoint is_substring (sub s : string) : bool :=
  String.prefix sub s ||
  match s with
  | EmptyString => false
  | String _ s' => is_substring sub s'
  end.

(** [key in container], the key a string. *)
Definition contains (container : value) (k : string) : result bool :=
  match container with
  | VDict items =>
      Ok (match dict_get items (KStr k) with Some _ => true | None => false end)
  | VList items =>
      Ok (existsb (fun v => match v with
                            | VStr s => String.eqb s k
                            | _ => false
                            end) items)
  | VStr s => Ok (is_substring k s)
  | VNone | VBool _ | VNum _ => Raise TypeError
  end.

(** [container[key]], the key a string. *)
Definition subscript (container : value) (k : string) : result value :=
  match container with
  | VDict items =>
      match dict_get items (KStr k) with
      | Some v => Ok v
      | None => Raise KeyError
      end
  | _ => Raise TypeError
  end.

(** The top level of the configuration: its sections by name. *)
Definition sections : Type := list (string * value).

(** The loop [for key in default_config: if key in user_config: ...]
    over the sections that are left. *)
Fixpoint merge (user_config : value) (default_config : sections)
    : result sections :=
  match default_config with
  | [] => Ok []
  | (key, section) :: rest =>
      present ← contains user_config key;
      merged ←
        (if present : bool then
           match section with
           | VDict d =>
               other ← subscript user_config key;
               d' ← dict_update d other;
               Ok (VDict d')
           | _ => subscript user_config key
           end
         else Ok section);
      rest' ← merge user_config rest;
      Ok ((key, merged) :: rest')
  end.

(** A glyph of the icon font, a code point of the private use area, as
    the three bytes of its UTF-8 form. *)
Definition glyph (b2 b3 : N) : value :=
  VStr (String "239" (String (ascii_of_N b2) (String (ascii_of_N b3) EmptyString))).

Definition text (k : string) (v : value) : key * value := (KStr k, v).

(** The literal [default_config] of the source. *)
Definition default_config : sections :=
  [("display",
    VDict [text "width" (VNum 128); text "height" (VNum 64);
           text "i2c_address" (VStr "0x3C"); text "rotation" (VNum 0)]);
   ("timing",
    VDict [text "refresh_interval" (VNum 1); text "rotation_interval" (VNum 3)]);
   ("fonts",
    VDict [text "text_font" (VStr "PixelOperator.ttf");
           text "text_size" (VNum 16); text "text_size_large" (VNum 24);
           text "icon_font" (VStr "la-solid-900.ttf");
           text "icon_size" (VNum 14)]);
   ("thresholds",
    VDict [text "load_warn" (VNum 2); text "temp_warn" (VNum 70);
           text "mem_warn" (VNum 80); text "disk_warn" (VNum 80)]);
   ("icons",
    VDict [text "hostname" (glyph 132 136); text "wifi" (glyph 135 171);
           text "lan" (glyph 155 191); text "offline" (glyph 128 145);
           text "load_normal" (glyph 131 167); text "load_warn" (glyph 129 173);
           text "temp_normal" (glyph 139 137); text "temp_warn" (glyph 129 173);
           text "mem_normal" (glyph 130 174); text "mem_warn" (glyph 129 177);
           text "disk_normal" (glyph 130 160); text "disk_warn" (glyph 129 177)])].

(** What opening and parsing [config.json] came to. *)
Inductive config_file : Type :=
  | NotFound                       (* FileNotFoundError *)
  | Malformed                      (* json.JSONDecodeError *)
  | Fails (e : exn)                (* any other exception *)
  | Parsed (user_config : value).

(** [load_config()]: only the two exceptions named by the [except]
    clauses give the defaults; whatever else is raised, by the file or by
    the merge, leaves the function. *)
Definition load_config (file : config_file) : result sections :=
  match file with
  | Parsed user_config => merge user_config default_config
  | NotFound | Malformed => Ok default_config
  | Fails e => Raise e
  end.

(** [config[section][name]], as the module and the loop read their
    settings. *)
Definition setting (config : sections) (section name : string) : result value :=
  match List.find (fun kv => String.eqb (fst kv) section) config with
  | Some (_, v) => subscript v name
  | None => Raise KeyError
  end.

(** The names of the sections of [default_config]. *)
Definition section_names : list string := map fst default_config.

(** What the user's file says about one setting: the value in the
    section of that name, when the section is there and a dictionary. *)
Definition user_setting (user_items : dict) (section name : string)
    : option value :=
  match dict_get user_items (KStr section) with
  | Some (VDict items) => dict_get (rev items) (KStr name)
  | _ => None
  end.

(** A value that [update] cannot take: one that is not iterable, or a
    string that is not empty. *)
Definition not_a_mapping (v : value) : Prop :=
  match v with
  | VNone | VBool _ | VNum _ => True
  | VStr s => s <> EmptyString
  | VList _ | VDict _ => False
  end.

End Config.

(** A file to try the loader on: one known section that overrides one
    setting and adds another, and one unknown section. *)
Definition sample_config_file : Config.config_file :=
  Config.Parsed
    (Config.VDict
       [Config.text "timing"
          (Config.VDict [Config.text "rotation_interval" (Config.VNum 5);
                         Config.text "comment" (Config.VStr "slow")]);
        Config.text "colours" (Config.VList [Config.VStr "red"])]).

Definition sample_config : Config.sections :=
  match Config.load_config sample_config_file with
  | Ok config => config
  | Raise _ => []
  end.

(** A statement that returns in every world and leaves the two globals
    of the rotation alone. *)
Definition returns {A} (m : action A) : Prop :=
  forall w, exists a w', m w = (Ok a, w') /\ rot w' = rot w.

(** An iteration in which no signal arrives, nothing raises, and the
    enumeration command prints [out]. *)
Definition calm (out : string) (E : env) : Prop :=
  signal E = None /\ (forall s, fails E s = None) /\ output E Ip179 = out.

(** * Properties *)

(** ** Network enumeration *)

Lemma get_network_info_cons HOSTNAME cmd :
  exists rest, get_network_info HOSTNAME cmd = ("hostname", HOSTNAME) :: rest.
Proof.
  destruct cmd as [raw|e]; simpl; eauto.
Qed.

(** C7, as the code has it: when the enumeration sub-process raises,
    whatever the exception, [get_network_info] returns the one-element
    list that holds the hostname fact; the function itself has appended
    it before the [try], not its caller. *)
Theorem get_network_info_enumeration_fails HOSTNAME e :
  get_network_info HOSTNAME (Raise e) = [("hostname", HOSTNAME)].
Proof. reflexivity. Qed.

(** C7 as stated fails: with an enumeration that raises, the list
    returned is not empty. *)
Lemma get_network_info_enumeration_fails_not_empty :
  get_network_info "pi" (Raise CalledProcessError) <> [].
Proof. discriminate. Qed.

(** C10: for every outcome of the enumeration, failure included,
    [get_network_info] returns a non-empty list whose first element is
    the hostname fact; so the test [if network_info:] of the loop is
    always true, and the selection is the indexing of its first branch,
    never the ["No network"] fact of its [else] branch.  The same holds
    of the call inside the loop, whatever the outside does in that
    iteration. *)
Theorem get_network_info_never_empty hostname cmd r :
  get_network_info hostname cmd <> [] /\
  head (get_network_info hostname cmd) = Some ("hostname", hostname) /\
  Py.truthy (get_network_info hostname cmd) = true /\
  current_info (get_network_info hostname cmd) r =
    (i ← mod_ (rotation_index r)
           (Z.of_nat (length (get_network_info hostname cmd)));
     getitem (get_network_info hostname cmd) i) /\
  forall cfg E w,
    exists network_info w',
      get_network_info_call cfg E w = (Ok network_info, w') /\
      head network_info = Some ("hostname", HOSTNAME cfg) /\
      Py.truthy network_info = true.
Proof.
  split; [|split; [|split; [|split]]].
  1-4: destruct (get_network_info_cons hostname cmd) as [rest ->];
    first [discriminate | reflexivity].
  intros cfg E w. unfold get_network_info_call.
  destruct (check_output cfg E Ip179 w) as [cmd' w'].
  destruct (get_network_info_cons (HOSTNAME cfg) cmd') as [rest Hrest].
  exists (get_network_info (HOSTNAME cfg) cmd'), w'.
  rewrite Hrest. repeat split.
Qed.

(** ** Threshold classifier *)

Lemma append_inj_l (a b c : string) : a +:+ b = a +:+ c -> b = c.
Proof.
  induction a as [|ch a IH]; simpl; [tauto|].
  intros [= H]. auto.
Qed.

Lemma warn_normal_distinct base : base +:+ "_warn" <> base +:+ "_normal".
Proof. intros H. apply append_inj_l in H. discriminate. Qed.

Lemma ge_spec value threshold : ge value threshold = true <-> (threshold <= value)%Q.
Proof. unfold ge. apply Qle_bool_iff. Qed.

(** C3: the classifier gives the key ["{base}_warn"] exactly when
    [value >= threshold] and the key ["{base}_normal"] exactly when not;
    a value equal to the threshold gives the warning key. *)
Theorem get_icon_for_value_spec base (value threshold : Q) :
  (get_icon_for_value base value threshold = base +:+ "_warn"
     <-> (threshold <= value)%Q) /\
  (get_icon_for_value base value threshold = base +:+ "_normal"
     <-> ~ (threshold <= value)%Q) /\
  get_icon_for_value base threshold threshold = base +:+ "_warn" /\
  get_icon_for_value base threshold threshold <> base +:+ "_normal".
Proof.
  unfold get_icon_for_value.
  assert (Hrefl : ge threshold threshold = true)
    by (apply ge_spec, Qle_refl).
  rewrite Hrefl.
  pose proof (warn_normal_distinct base) as Hd.
  destruct (ge value threshold) eqn:Hge.
  - apply ge_spec in Hge.
    split; [tauto|]. split; [|tauto].
    split; [intros H; contradiction | tauto].
  - assert (~ (threshold <= value)%Q) as Hn.
    { intros H. apply ge_spec in H. congruence. }
    split; [|tauto].
    split; [intros H; symmetry in H; contradiction | tauto].
Qed.

(** ** Rotation scheduler *)

Lemma geb_true_iff a b : (a >=? b)%Z = true <-> (b <= a)%Z.
Proof. rewrite Z.geb_leb. apply Z.leb_le. Qed.

Lemma geb_false_iff a b : (a >=? b)%Z = false <-> (a < b)%Z.
Proof. rewrite Z.geb_leb. apply Z.leb_gt. Qed.

Lemma mod_nonempty {A} (a : Z) (l : list A) :
  l <> [] -> mod_ a (Z.of_nat (length l)) = Ok (a mod Z.of_nat (length l))%Z.
Proof.
  intros Hl. unfold mod_.
  destruct (Z.eqb_spec (Z.of_nat (length l)) 0) as [H0|]; [|reflexivity].
  destruct l; [congruence|]. simpl in H0. lia.
Qed.

Lemma max_1_length {A} (l : list A) :
  l <> [] -> Z.max 1 (Z.of_nat (length l)) = Z.of_nat (length l).
Proof. destruct l; [congruence|]. simpl length. lia. Qed.

(** C1 as stated fails: at a tick where the rotation is due, the code
    ends the tick with the counter at 1 (reset, then incremented), where
    the reference machine leaves it at 0. *)
Lemma rotation_tick_differs_from_spec :
  rotation_tick 3 Fixtures.four_facts
    {| rotation_index := 0; loop_counter := 3 |} =
    Ok {| rotation_index := 1; loop_counter := 1 |} /\
  spec_rotation_step 3 Fixtures.four_facts
    {| rotation_index := 0; loop_counter := 3 |} =
    {| rotation_index := 1; loop_counter := 0 |} /\
  rotation_tick 3 Fixtures.four_facts
    {| rotation_index := 0; loop_counter := 3 |} <>
    Ok (spec_rotation_step 3 Fixtures.four_facts
          {| rotation_index := 0; loop_counter := 3 |}).
Proof. repeat split. discriminate. Qed.

(** C1, as the code has it: whenever the fact list is not empty or the
    rotation is not due, one tick is the step of the reference machine
    followed, when the rotation was due, by the increment that ends every
    tick: the cursor becomes [(cursor + 1) mod len(facts)] and the
    counter ends at 1; otherwise the counter is incremented and the
    cursor is unchanged. *)
Theorem rotation_tick_refines_spec (interval : Z) (facts : list fact) (r : rotation) :
  facts <> [] \/ (loop_counter r < interval)%Z ->
  rotation_tick interval facts r =
    Ok (if (loop_counter r >=? interval)%Z
        then count_tick (spec_rotation_step interval facts r)
        else spec_rotation_step interval facts r) /\
  (if (loop_counter r >=? interval)%Z
   then count_tick (spec_rotation_step interval facts r)
   else spec_rotation_step interval facts r) =
    (if (loop_counter r >=? interval)%Z
     then {| rotation_index :=
               (rotation_index r + 1) mod Z.of_nat (length facts);
             loop_counter := 1 |}
     else {| rotation_index := rotation_index r;
             loop_counter := loop_counter r + 1 |}).
Proof.
  intros H. unfold rotation_tick, rotate, spec_rotation_step.
  destruct (loop_counter r >=? interval)%Z eqn:Hge.
  - destruct H as [Hne | Hlt].
    + rewrite (mod_nonempty _ _ Hne), (max_1_length _ Hne). split; reflexivity.
    + apply geb_true_iff in Hge. lia.
  - split; reflexivity.
Qed.

Lemma rotation_tick_refines_spec_witness :
  rotation_tick 3 [("hostname", "pi"); ("lan", "10.0.0.2")]
    {| rotation_index := 1; loop_counter := 3 |} =
    Ok {| rotation_index := 0; loop_counter := 1 |}.
Proof.
  destruct (rotation_tick_refines_spec 3
              [("hostname", "pi"); ("lan", "10.0.0.2")]
              {| rotation_index := 1; loop_counter := 3 |}) as [H _].
  - left. discriminate.
  - exact H.
Defined.

Lemma rotation_tick_nonempty (interval : Z) (facts : list fact) (r : rotation) :
  facts <> [] ->
  rotation_tick interval facts r =
    Ok (if (loop_counter r >=? interval)%Z
        then {| rotation_index :=
                  (rotation_index r + 1) mod Z.of_nat (length facts);
                loop_counter := 1 |}
        else {| rotation_index := rotation_index r;
                loop_counter := loop_counter r + 1 |}).
Proof.
  intros Hne. unfold rotation_tick, rotate.
  destruct (loop_counter r >=? interval)%Z; [|reflexivity].
  rewrite (mod_nonempty _ _ Hne). reflexivity.
Qed.

Lemma rotation_ticks_snoc n interval facts r :
  rotation_ticks (S n) interval facts r =
    (r' ← rotation_ticks n interval facts r; rotation_tick interval facts r').
Proof.
  revert r. induction n as [|n IH]; intros r.
  - simpl. destruct (rotation_tick interval facts r); reflexivity.
  - change (rotation_ticks (S (S n)) interval facts r)
      with (r' ← rotation_tick interval facts r;
            rotation_ticks (S n) interval facts r').
    change (rotation_ticks (S n) interval facts r)
      with (r' ← rotation_tick interval facts r;
            rotation_ticks n interval facts r').
    destruct (rotation_tick interval facts r) as [r1|e]; [|reflexivity].
    simpl. apply IH.
Qed.

Lemma three_tick_arith (m : Z) :
  (0 <= m)%Z ->
  (if (m mod 3 + 1 >=? 3)%Z
   then (((m / 3) mod 4 + 1) mod 4 = ((m + 1) / 3) mod 4 /\
         1 = (m + 1) mod 3 + 1)
   else ((m / 3) mod 4 = ((m + 1) / 3) mod 4 /\
         m mod 3 + 1 + 1 = (m + 1) mod 3 + 1))%Z.
Proof.
  intros Hm.
  destruct (m mod 3 + 1 >=? 3)%Z eqn:Hge.
  - apply geb_true_iff in Hge. rewrite Zplus_mod_idemp_l.
    assert ((m + 1) / 3 = m / 3 + 1 /\ (m + 1) mod 3 = 0)%Z as [-> ->].
    { revert Hge. Z.div_mod_to_equations. lia. }
    split; reflexivity.
  - apply geb_false_iff in Hge.
    assert ((m + 1) / 3 = m / 3 /\ (m + 1) mod 3 = m mod 3 + 1)%Z as [-> ->].
    { revert Hge. Z.div_mod_to_equations. lia. }
    split; reflexivity.
Qed.

Lemma rotation_ticks_three_four (a b c d : fact) (n : nat) :
  rotation_ticks (S n) 3 [a; b; c; d] rotation_init =
    Ok {| rotation_index := (Z.of_nat n / 3) mod 4;
          loop_counter := Z.of_nat n mod 3 + 1 |}.
Proof.
  induction n as [|n IH]; [reflexivity|].
  rewrite rotation_ticks_snoc, IH. simpl mbind. unfold result_bind, Py.bind.
  rewrite rotation_tick_nonempty by discriminate.
  cbn [rotation_index loop_counter length].
  pose proof (three_tick_arith (Z.of_nat n) ltac:(lia)) as H.
  replace (Z.of_nat (S n)) with (Z.of_nat n + 1)%Z by lia.
  change (Z.of_nat 4) with 4%Z.
  destruct (Z.of_nat n mod 3 + 1 >=? 3)%Z; destruct H as [-> <-]; reflexivity.
Qed.

Lemma current_info_nonempty (facts : list fact) (r : rotation) :
  facts <> [] ->
  exists f,
    current_info facts r = Ok f /\
    nth_error facts
      (Z.to_nat (rotation_index r mod Z.of_nat (length facts))) = Some f /\
    (0 <= rotation_index r mod Z.of_nat (length facts)
       < Z.of_nat (length facts))%Z.
Proof.
  intros Hne. unfold current_info.
  assert (Py.truthy facts = true) as -> by (destruct facts; [congruence|reflexivity]).
  rewrite (mod_nonempty _ _ Hne). simpl mbind. unfold result_bind, Py.bind, getitem.
  assert (0 < Z.of_nat (length facts))%Z as Hlen.
  { destruct facts; [congruence|]. simpl length. lia. }
  pose proof (Z.mod_pos_bound (rotation_index r) _ Hlen) as Hb.
  set (i := (rotation_index r mod Z.of_nat (length facts))%Z) in *.
  destruct (Z.ltb_spec i 0); [lia|].
  destruct (Z.leb_spec 0 i); [|lia].
  destruct (Z.ltb_spec i (Z.of_nat (length facts))); [|lia].
  simpl andb. cbv iota.
  destruct (nth_error facts (Z.to_nat i)) as [f|] eqn:Hnth.
  - exists f. auto.
  - apply nth_error_None in Hnth. lia.
Qed.

(** C2 as stated fails: three ticks after the start the cursor is still
    0, and six ticks after the start it is 1. *)
Lemma cursor_after_three_ticks :
  rotation_ticks 3 3 Fixtures.four_facts rotation_init =
    Ok {| rotation_index := 0; loop_counter := 3 |} /\
  rotation_ticks 6 3 Fixtures.four_facts rotation_init =
    Ok {| rotation_index := 1; loop_counter := 3 |} /\
  ~ (exists r, rotation_ticks 3 3 Fixtures.four_facts rotation_init = Ok r /\
               rotation_index r = 1%Z).
Proof.
  repeat split. intros [r [[= <-] H]]. discriminate.
Qed.

(** C2, as the code has it: from cursor 0 and counter 0, with a rotation
    interval of 3 and four facts, the cursor after [n + 1] ticks is
    [(n / 3) mod 4] and the counter is [n mod 3 + 1]: the cursor is 1
    after 4 ticks and 2 after 7 ticks, and advances by one, modulo 4,
    once every 3 ticks.  The tick that follows [n] ticks displays the
    fact of index [(n / 3) mod 4]: its own rotation step comes first. *)
Theorem rotation_every_three_ticks (a b c d : fact) (n : nat) :
  rotation_ticks (S n) 3 [a; b; c; d] rotation_init =
    Ok {| rotation_index := (Z.of_nat n / 3) mod 4;
          loop_counter := Z.of_nat n mod 3 + 1 |} /\
  rotation_ticks 4 3 [a; b; c; d] rotation_init =
    Ok {| rotation_index := 1; loop_counter := 1 |} /\
  rotation_ticks 7 3 [a; b; c; d] rotation_init =
    Ok {| rotation_index := 2; loop_counter := 1 |} /\
  (r ← rotation_ticks n 3 [a; b; c; d] rotation_init;
   displayed_info 3 [a; b; c; d] r) =
    getitem [a; b; c; d] ((Z.of_nat n / 3) mod 4).
Proof.
  split; [apply rotation_ticks_three_four|].
  split; [reflexivity|]. split; [reflexivity|].
  destruct n as [|m]; [reflexivity|].
  rewrite rotation_ticks_three_four. simpl mbind. unfold result_bind, Py.bind.
  unfold displayed_info, rotate. cbn [rotation_index loop_counter].
  rewrite (mod_nonempty (A:=fact)) by discriminate.
  pose proof (three_tick_arith (Z.of_nat m) ltac:(lia)) as H.
  replace (Z.of_nat (S m)) with (Z.of_nat m + 1)%Z by lia.
  simpl length. change (Z.of_nat 4) with 4%Z.
  destruct (Z.of_nat m mod 3 + 1 >=? 3)%Z; destruct H as [H _].
  - rewrite H. simpl mbind. unfold result_bind, Py.bind, current_info.
    cbn [Py.truthy rotation_index]. unfold mod_. simpl length.
    change (Z.of_nat 4 =? 0)%Z with false. cbv iota.
    change (Z.of_nat 4) with 4%Z. rewrite Z.mod_mod by lia. reflexivity.
  - rewrite <- H. simpl mbind. unfold result_bind, Py.bind, current_info.
    cbn [Py.truthy rotation_index]. unfold mod_. simpl length.
    change (Z.of_nat 4 =? 0)%Z with false. cbv iota.
    change (Z.of_nat 4) with 4%Z. rewrite Z.mod_mod by lia. reflexivity.
Qed.

(** The rotation step itself has no guard for the empty list; the loop
    never passes it one, since [get_network_info] always returns the
    hostname fact. *)
Remark rotate_empty_list_due :
  rotate 3 [] {| rotation_index := 0; loop_counter := 3 |} =
    Raise ZeroDivisionError.
Proof. reflexivity. Qed.

(** On the list that the loop works on, the rotation step and the
    selection raise nothing, whatever the enumeration returned or raised
    and whatever the two globals hold. *)
Lemma displayed_info_in_loop (interval : Z) (hostname : string)
    (cmd : result string) (r : rotation) :
  exists r' f,
    rotate interval (get_network_info hostname cmd) r = Ok r' /\
    displayed_info interval (get_network_info hostname cmd) r = Ok f /\
    nth_error (get_network_info hostname cmd)
      (Z.to_nat (rotation_index r' mod
                 Z.of_nat (length (get_network_info hostname cmd)))) = Some f.
Proof.
  destruct (get_network_info_cons hostname cmd) as [rest Hfacts].
  set (facts := get_network_info hostname cmd) in *.
  assert (facts <> []) as Hne by (rewrite Hfacts; discriminate).
  assert (exists r', rotate interval facts r = Ok r') as [r' Hr'].
  { unfold rotate. destruct (loop_counter r >=? interval)%Z; [|eauto].
    rewrite (mod_nonempty _ _ Hne). simpl. eauto. }
  destruct (current_info_nonempty facts r' Hne) as (f & Hf & Hnth & _).
  exists r', f. unfold displayed_info. rewrite Hr'. simpl. auto.
Qed.

(** C6: the fact selection gives exactly [("hostname", "No network")]
    for the empty list, whatever the cursor, and raises nothing; for a
    list that is not empty it gives [facts[cursor mod len(facts)]], an
    index in bounds whatever the cursor is, so also when the list has
    another length than when the cursor was last advanced; and on the
    list of a tick of the loop, which [get_network_info] returns, the
    rotation step and the selection raise nothing and the displayed fact
    is the one at the cursor that this tick's rotation step leaves. *)
Theorem displayed_info_safe :
  (forall r, current_info [] r = Ok ("hostname", "No network")) /\
  (forall f0 rest r,
     exists f,
       current_info (f0 :: rest) r = Ok f /\
       nth_error (f0 :: rest)
         (Z.to_nat (rotation_index r mod Z.of_nat (length (f0 :: rest)))) =
         Some f /\
       (0 <= rotation_index r mod Z.of_nat (length (f0 :: rest))
          < Z.of_nat (length (f0 :: rest)))%Z) /\
  (forall interval hostname cmd r,
     exists r' f,
       rotate interval (get_network_info hostname cmd) r = Ok r' /\
       displayed_info interval (get_network_info hostname cmd) r = Ok f /\
       nth_error (get_network_info hostname cmd)
         (Z.to_nat (rotation_index r' mod
                    Z.of_nat (length (get_network_info hostname cmd)))) =
         Some f).
Proof.
  split; [reflexivity|]. split.
  - intros f0 rest r. apply current_info_nonempty. discriminate.
  - intros interval hostname cmd r. apply displayed_info_in_loop.
Qed.

(** *** White space, tokens and lines *)

Section Strings.

Import PyStr.

Lemma app_String c (s t : string) : String c s +:+ t = String c (s +:+ t).
Proof. reflexivity. Qed.

Lemma app_empty (t : string) : EmptyString +:+ t = t.
Proof. reflexivity. Qed.

(** stdpp keeps [simpl] away from the concatenation of strings. *)
Ltac app_norm := rewrite ?app_String, ?app_empty.

Lemma append_assoc (s t u : string) : (s +:+ t) +:+ u = s +:+ (t +:+ u).
Proof.
  induction s as [|c s IH]; app_norm; [reflexivity|].
  rewrite IH. reflexivity.
Qed.

Lemma app_nonempty_r (s t : string) : t <> EmptyString -> s +:+ t <> EmptyString.
Proof. destruct s; app_norm; [tauto | discriminate]. Qed.

Lemma all_chars_app p (s t : string) :
  all_chars p (s +:+ t) = all_chars p s && all_chars p t.
Proof.
  induction s as [|c s IH]; app_norm; simpl; [reflexivity|].
  rewrite IH. apply andb_assoc.
Qed.

Lemma all_chars_impl (p q : ascii -> bool) (s : string) :
  (forall c, p c = true -> q c = true) ->
  all_chars p s = true -> all_chars q s = true.
Proof.
  intros Hpq. induction s as [|c s IH]; simpl; [reflexivity|].
  intros [Hc Hs]%andb_prop. rewrite (Hpq _ Hc), (IH Hs). reflexivity.
Qed.

Lemma is_token_inv (t : string) :
  is_token t = true ->
  exists c t', t = String c t' /\ is_space c = false /\
               all_chars (fun c => negb (is_space c)) t' = true.
Proof.
  unfold is_token. destruct t as [|c t']; simpl; [discriminate|].
  intros [Hc Ht]%andb_prop. exists c, t'.
  apply negb_true_iff in Hc. auto.
Qed.

Lemma is_token_chars (t : string) :
  is_token t = true -> all_chars (fun c => negb (is_space c)) t = true.
Proof. unfold is_token. intros [_ H]%andb_prop. exact H. Qed.

(** [rstrip] over a concatenation. *)
Lemma rstrip_by_app p (s t : string) :
  rstrip_by p (s +:+ t) =
    match rstrip_by p t with
    | EmptyString => rstrip_by p s
    | String _ _ as r => s +:+ r
    end.
Proof.
  induction s as [|c s IH].
  - app_norm. simpl. destruct (rstrip_by p t); reflexivity.
  - rewrite app_String. cbn [rstrip_by]. rewrite IH.
    destruct (rstrip_by p t) as [|a r]; [reflexivity|].
    destruct s; reflexivity.
Qed.

Lemma rstrip_no_space (t : string) :
  all_chars (fun c => negb (is_space c)) t = true -> rstrip t = t.
Proof.
  unfold rstrip. induction t as [|c t IH]; simpl; [reflexivity|].
  intros [Hc Ht]%andb_prop. rewrite (IH Ht).
  apply negb_true_iff in Hc. rewrite Hc. destruct t; reflexivity.
Qed.

Lemma rstrip_ends_token (s t : string) :
  is_token t = true -> rstrip (s +:+ t) = s +:+ t.
Proof.
  intros Ht. unfold rstrip. rewrite rstrip_by_app.
  fold (rstrip t). rewrite (rstrip_no_space t (is_token_chars t Ht)).
  destruct (is_token_inv t Ht) as (c & t' & -> & _). reflexivity.
Qed.

Lemma lstrip_starts_token (t s : string) :
  is_token t = true -> lstrip (t +:+ s) = t +:+ s.
Proof.
  intros Ht. destruct (is_token_inv t Ht) as (c & t' & -> & Hc & _).
  app_norm. simpl. rewrite Hc. reflexivity.
Qed.

Lemma split_String c (s : string) :
  split (String c s) =
    if is_space c then split s
    else match s with
         | EmptyString => [String c EmptyString]
         | String c' _ =>
             if is_space c' then String c EmptyString :: split s
             else match split s with
                  | w :: ws => String c w :: ws
                  | [] => [String c EmptyString]
                  end
         end.
Proof. reflexivity. Qed.

(** [split] on a token followed by a space, and on a token alone. *)
Lemma split_token_space (t rest : string) :
  is_token t = true ->
  split (t +:+ String " " rest) = t :: split rest.
Proof.
  intros Ht. destruct (is_token_inv t Ht) as (c & t' & -> & Hc & Ht').
  clear Ht. revert c Hc. induction t' as [|c' t' IH]; intros c Hc.
  - app_norm. simpl. rewrite Hc. reflexivity.
  - simpl in Ht'. apply andb_prop in Ht' as [Hc' Ht'].
    apply negb_true_iff in Hc'.
    rewrite !app_String, split_String, Hc, Hc'.
    rewrite <- app_String, (IH Ht' c' Hc'). reflexivity.
Qed.

Lemma split_token (t : string) : is_token t = true -> split t = [t].
Proof.
  intros Ht. destruct (is_token_inv t Ht) as (c & t' & -> & Hc & Ht').
  clear Ht. revert c Hc. induction t' as [|c' t' IH]; intros c Hc.
  - simpl. rewrite Hc. reflexivity.
  - simpl in Ht'. apply andb_prop in Ht' as [Hc' Ht'].
    apply negb_true_iff in Hc'.
    rewrite split_String, Hc, Hc', (IH Ht' c' Hc'). reflexivity.
Qed.

(** [split('\n')] on a first line free of newlines. *)
Lemma split_on_first_line sep (s t : string) :
  all_chars (fun c => negb (Ascii.eqb c sep)) s = true ->
  split_on sep (s +:+ String sep t) = s :: split_on sep t.
Proof.
  induction s as [|c s IH]; app_norm; simpl.
  - intros _. rewrite Ascii.eqb_refl. reflexivity.
  - intros [Hc Hs]%andb_prop. apply negb_true_iff in Hc.
    rewrite Hc, (IH Hs). reflexivity.
Qed.

Lemma split_on_one_line sep (s : string) :
  all_chars (fun c => negb (Ascii.eqb c sep)) s = true ->
  split_on sep s = [s].
Proof.
  induction s as [|c s IH]; simpl; [reflexivity|].
  intros [Hc Hs]%andb_prop. apply negb_true_iff in Hc.
  rewrite Hc, (IH Hs). reflexivity.
Qed.

End Strings.

(** *** The lines of a well-formed enumeration *)

Lemma enumeration_line_no_newline entry :
  well_formed entry ->
  all_chars (fun c => negb (Ascii.eqb c "010")) (enumeration_line entry) = true.
Proof.
  intros [Hn Ha]. unfold enumeration_line.
  assert (forall c, negb (PyStr.is_space c) = true ->
                    negb (Ascii.eqb c "010") = true) as Himp.
  { intros c Hc. destruct (Ascii.eqb_spec c "010") as [->|]; [|reflexivity].
    discriminate Hc. }
  rewrite !all_chars_app.
  rewrite (all_chars_impl _ _ _ Himp (is_token_chars _ Hn)).
  rewrite (all_chars_impl _ _ _ Himp (is_token_chars _ Ha)).
  reflexivity.
Qed.

Lemma line_facts_enumeration_line entry :
  well_formed entry ->
  line_facts (enumeration_line entry) = interface_facts entry.
Proof.
  intros [Hn Ha]. destruct entry as [interface ip]. simpl in Hn, Ha.
  unfold line_facts, enumeration_line. simpl fst. simpl snd.
  destruct (is_token_inv _ Hn) as (c & t' & Heq & _).
  assert (PyStr.truthy (interface +:+ " " +:+ ip) = true) as ->
    by (rewrite Heq; reflexivity).
  change (" " +:+ ip) with (String " " ip).
  rewrite (split_token_space _ _ Hn), (split_token _ Ha).
  reflexivity.
Qed.

(** The text of a non-empty enumeration, stripped: its lines joined by
    newlines, the last newline gone; then split again into its lines. *)
Lemma split_strip_enumeration (entries : list interface_entry) :
  Forall well_formed entries -> entries <> [] ->
  PyStr.rstrip (enumeration_text entries) <> EmptyString /\
  PyStr.split_on "010" (PyStr.rstrip (enumeration_text entries)) =
    map enumeration_line entries.
Proof.
  induction 1 as [|entry rest Hwf Hrest IH]; [congruence|]. intros _.
  pose proof (enumeration_line_no_newline entry Hwf) as Hnl.
  assert (PyStr.rstrip (enumeration_line entry) = enumeration_line entry) as Hline.
  { unfold enumeration_line.
    replace (fst entry +:+ " " +:+ snd entry)
      with ((fst entry +:+ " ") +:+ snd entry)
      by apply append_assoc.
    apply rstrip_ends_token, Hwf. }
  assert (enumeration_line entry <> EmptyString) as Hne.
  { unfold enumeration_line. destruct Hwf as [Hn _].
    destruct (is_token_inv _ Hn) as (c & t' & -> & _). discriminate. }
  cbn [enumeration_text]. unfold PyStr.rstrip in *.
  rewrite rstrip_by_app. cbn [PyStr.rstrip_by].
  destruct rest as [|entry' rest'].
  - cbn [enumeration_text PyStr.rstrip_by]. change (PyStr.is_space "010") with true.
    cbv iota. rewrite Hline. split; [exact Hne|].
    simpl map. apply split_on_one_line, Hnl.
  - destruct IH as [IHne IHsplit]; [discriminate|].
    destruct (PyStr.rstrip_by PyStr.is_space (enumeration_text (entry' :: rest')))
      as [|a r] eqn:Hr; [congruence|].
    split; [apply app_nonempty_r; discriminate|].
    rewrite (split_on_first_line _ _ _ Hnl), IHsplit. reflexivity.
Qed.

Lemma lstrip_enumeration (entries : list interface_entry) :
  Forall well_formed entries ->
  PyStr.lstrip (enumeration_text entries) = enumeration_text entries.
Proof.
  intros [|entry rest [Hn _] _]; [reflexivity|].
  cbn [enumeration_text]. unfold enumeration_line.
  rewrite !append_assoc. apply lstrip_starts_token, Hn.
Qed.

(** C8 as stated fails: an enumerated interface whose name starts with
    none of the skipped prefixes, but with none of [eth], [en], [wlan],
    [wl] either, gets no fact. *)
Lemma unclassified_interface_dropped :
  well_formed ("usb0", "10.1.1.1") /\
  existsb (PyStr.startswith "usb0") skip_prefixes = false /\
  get_network_info "pi" (Ok (enumeration_text [("usb0", "10.1.1.1")])) =
    [("hostname", "pi")].
Proof. repeat split. Qed.

(** C8, as the code has it: for the text of any enumeration of
    well-formed interfaces, [get_network_info] returns the hostname fact
    first, then, in enumeration order, one fact for each interface whose
    name starts with none of [docker], [br-], [veth], [tailscale], [tun],
    [tap] and starts with [eth] or [en] (kind ["lan"]) or with [wlan] or
    [wl] (kind ["wifi"]), paired with its address; an interface of any
    other name gets no fact. *)
Theorem get_network_info_enumeration HOSTNAME (entries : list interface_entry) :
  Forall well_formed entries ->
  get_network_info HOSTNAME (Ok (enumeration_text entries)) =
    ("hostname", HOSTNAME) :: flat_map interface_facts entries.
Proof.
  intros Hwf. unfold get_network_info, PyStr.strip.
  rewrite (lstrip_enumeration _ Hwf). simpl app. f_equal.
  destruct entries as [|entry rest]; [reflexivity|].
  destruct (split_strip_enumeration _ Hwf) as [_ ->]; [discriminate|].
  induction Hwf as [|e es He Hes IH]; [reflexivity|].
  simpl. rewrite (line_facts_enumeration_line _ He), IH. reflexivity.
Qed.

Lemma get_network_info_enumeration_witness :
  get_network_info "pi"
    (Ok (enumeration_text
           [("eth0", "192.168.1.5"); ("docker0", "172.17.0.1");
            ("wlan0", "10.0.0.7"); ("usb0", "10.1.1.1");
            ("enp3s0", "10.0.0.9"); ("br-4f2a", "172.18.0.1")])) =
    [("hostname", "pi"); ("lan", "192.168.1.5"); ("wifi", "10.0.0.7");
     ("lan", "10.0.0.9")].
Proof.
  apply (get_network_info_enumeration "pi"
           [("eth0", "192.168.1.5"); ("docker0", "172.17.0.1");
            ("wlan0", "10.0.0.7"); ("usb0", "10.1.1.1");
            ("enp3s0", "10.0.0.9"); ("br-4f2a", "172.18.0.1")]).
  repeat constructor.
Defined.

(** ** Temperature source *)

(** When the call of the sub-process at line 279 raises, the tick ends
    at that line at the latest: its body raises, and nothing is put on
    the panel. *)
Lemma tick_body_temperature_call_raises (float : string -> result Q)
    (format_f : nat -> Q -> string) (cfg : config) (E : env) (w : world) e :
  signal E = None ->
  fails E Temp279 = Some e ->
  exists e' w',
    tick_body float format_f cfg E w = (Raise e', w') /\
    shown w' = shown w.
Proof.
  intros Hsig Ht.
  unfold tick_body, render, fill_black, get_network_info_call, check_output,
    call, call_in_handler, mbind, action_bind, abind, lift, get, set_rot,
    set_image, aret.
  rewrite Hsig.
  repeat match goal with
         | |- context [decide (None = Some ?s)] =>
             destruct (decide (None = Some s)); [discriminate|]
         end.
  rewrite Ht.
  destruct (fails E Rect255); [eauto|].
  destruct (fails E Ip179);
    (destruct (rotate _ _ _) as [r'|]; [|eauto];
     destruct (current_info _ _) as [[info_type info_value]|]; [|eauto];
     destruct (fails E Load272); eauto).
Qed.

(** C9 as stated fails: the call of the sub-process is outside the
    [try] of the temperature block; when it raises, no value is given to
    the temperature, the exception leaves the block and the tick ends
    there, without a frame. *)
Lemma temperature_call_failure_surfaces :
  temperature Fixtures.float (Raise OSError) = Raise OSError /\
  exists w',
    tick_body Fixtures.float Fixtures.format_f
      (Fixtures.default_config "pi" true)
      (Fixtures.failing Temp279 OSError) world_init = (Raise OSError, w') /\
    shown w' = shown world_init.
Proof. split; [reflexivity|]. eexists. split; reflexivity. Qed.

(** C9, as the code has it: for whatever text the command returns, the
    temperature is the number read from it divided by 1000, and 0.0 when
    the text is not a number, as is the empty text that the pipeline
    prints when no thermal zone can be read; in these cases the block
    returns a value and raises nothing.  When the call of the sub-process
    itself raises, the exception leaves the block, and the tick ends
    there: its body raises and no frame is put on the panel. *)
Theorem temperature_spec (float : string -> result Q) :
  (exists e, float EmptyString = Raise e) ->
  (forall out v, float (PyStr.strip out) = Ok v ->
     temperature float (Ok out) = Ok (v / 1000)%Q) /\
  (forall out e, float (PyStr.strip out) = Raise e ->
     temperature float (Ok out) = Ok 0%Q) /\
  temperature float (Ok (thermal_pipeline None)) = Ok 0%Q /\
  (forall out, exists t, temperature float (Ok out) = Ok t) /\
  (forall e, temperature float (Raise e) = Raise e) /\
  (forall format_f cfg E w e,
     signal E = None -> fails E Temp279 = Some e ->
     exists e' w',
       tick_body float format_f cfg E w = (Raise e', w') /\
       shown w' = shown w).
Proof.
  intros [e0 He0]. unfold temperature, temp_of. simpl mbind.
  unfold result_bind, Py.bind.
  repeat split.
  - intros out v ->. reflexivity.
  - intros out e ->. reflexivity.
  - simpl. change (PyStr.strip "") with "". rewrite He0. reflexivity.
  - intros out. destruct (float (PyStr.strip out)); eauto.
  - intros format_f cfg E w e.
    apply tick_body_temperature_call_raises.
Qed.

Lemma temperature_spec_witness :
  temperature Fixtures.float (Ok ("45000" +:+ Fixtures.newline)) =
    Ok (45000 / 1000)%Q /\
  temperature Fixtures.float (Ok "n/a") = Ok 0%Q /\
  temperature Fixtures.float (Ok (thermal_pipeline None)) = Ok 0%Q.
Proof.
  destruct (temperature_spec Fixtures.float) as (H1 & H2 & H3 & _).
  - exists ValueError. reflexivity.
  - split; [apply H1; reflexivity|].
    split; [apply (H2 _ ValueError); reflexivity|exact H3].
Defined.

(** ** The render loop *)

Lemma contained_ret {A} (a : A) : contained (mret a : action A).
Proof. intros w. simpl. auto. Qed.

Lemma contained_bind {A B} (m : action A) (k : A -> action B) :
  contained m -> (forall a, contained (k a)) -> contained (mbind k m).
Proof.
  intros Hm Hk w. unfold mbind, action_bind, abind.
  specialize (Hm w). destruct (m w) as [[a|e] w1]; simpl in *.
  - destruct Hm as [Hs _]. specialize (Hk a w1). rewrite <- Hs. exact Hk.
  - exact Hm.
Qed.

Lemma contained_lift {A} (r : result A) :
  (forall e, r = Raise e -> is_Exception e = true) -> contained (lift r).
Proof.
  intros H w. unfold lift. simpl. split; [reflexivity|].
  destruct r; auto.
Qed.

Lemma contained_get {A} (f : world -> A) : contained (get f).
Proof. intros w. simpl. auto. Qed.

Lemma contained_set_rot r : contained (set_rot r).
Proof. intros w. simpl. auto. Qed.

Lemma contained_set_image c : contained (set_image c).
Proof. intros w. simpl. auto. Qed.

Lemma contained_set_buffer c : contained (set_buffer c).
Proof. intros w. simpl. auto. Qed.

Lemma contained_push_shown c : contained (push_shown c).
Proof. intros w. simpl. auto. Qed.

Lemma rotate_raises interval facts r e :
  rotate interval facts r = Raise e -> is_Exception e = true.
Proof.
  unfold rotate, mod_.
  destruct (loop_counter r >=? interval)%Z; [|discriminate].
  destruct (Z.of_nat (length facts) =? 0)%Z; simpl; [|discriminate].
  intros [= <-]. reflexivity.
Qed.

Lemma getitem_raises {A} (l : list A) i e :
  getitem l i = Raise e -> is_Exception e = true.
Proof.
  unfold getitem.
  destruct (_ && _); [destruct (nth_error _ _); [discriminate|]|];
    intros [= <-]; reflexivity.
Qed.

Lemma current_info_raises facts r e :
  current_info facts r = Raise e -> is_Exception e = true.
Proof.
  unfold current_info, mod_. destruct (Py.truthy facts); [|discriminate].
  destruct (Z.of_nat (length facts) =? 0)%Z; simpl.
  - intros [= <-]. reflexivity.
  - apply getitem_raises.
Qed.

Create HintDb contained.

#[local] Hint Resolve contained_ret contained_get contained_set_rot
  contained_set_image contained_set_buffer contained_push_shown : contained.

(** One step through a statement built from binds, branches and
    destructuring lets. *)
Ltac contained_step :=
  match goal with
  | |- contained (mbind _ _) => apply contained_bind; [|intros ?]
  | |- contained (mret _) => apply contained_ret
  | |- contained (aret _) => apply (contained_ret (A:=_))
  | |- contained (let '(_, _) := ?p in _) => destruct p
  | |- contained (if ?b then _ else _) => destruct b
  | |- contained (match ?x with _ => _ end) => destruct x
  | |- _ => solve [eauto with contained]
  end.

Section OrdinaryIteration.

Variable float : string -> result Q.
Variable format_f : nat -> Q -> string.
Variable cfg : config.
Variable E : env.
Hypothesis HE : ordinary E.

Lemma contained_call_in_handler s : contained (call_in_handler E s).
Proof.
  intros w. unfold call_in_handler.
  destruct (fails E s) as [e|] eqn:Hf; simpl; [|auto].
  split; [reflexivity|]. destruct HE as [_ H]. eauto.
Qed.

Lemma call_ordinary s : call cfg E s = call_in_handler E s.
Proof.
  unfold call. destruct HE as [-> _].
  destruct (decide (None = Some s)); [discriminate|reflexivity].
Qed.

Lemma contained_call s : contained (call cfg E s).
Proof. rewrite call_ordinary. apply contained_call_in_handler. Qed.

#[local] Hint Resolve contained_call : contained.

Lemma contained_fill_black s : contained (fill_black (call cfg E) s).
Proof. unfold fill_black. repeat contained_step. Qed.

Lemma contained_draw_text s x y str f :
  contained (draw_text (call cfg E) s x y str f).
Proof. unfold draw_text. repeat contained_step. Qed.

Lemma contained_oled_image s : contained (oled_image (call cfg E) s).
Proof. unfold oled_image. repeat contained_step. Qed.

Lemma contained_oled_show s : contained (oled_show (call cfg E) s).
Proof. unfold oled_show. repeat contained_step. Qed.

Lemma contained_check_output s : contained (check_output cfg E s).
Proof. unfold check_output. repeat contained_step. Qed.

#[local] Hint Resolve contained_fill_black contained_draw_text
  contained_oled_image contained_oled_show contained_check_output : contained.

Lemma contained_draw_icon s x y key : contained (draw_icon cfg E s x y key).
Proof. unfold draw_icon. repeat contained_step. Qed.

#[local] Hint Resolve contained_draw_icon : contained.

Lemma contained_draw_line s y key str : contained (draw_line cfg E s y key str).
Proof. unfold draw_line. repeat contained_step. Qed.

Lemma contained_get_network_info_call : contained (get_network_info_call cfg E).
Proof.
  intros w. unfold get_network_info_call.
  pose proof (contained_check_output Ip179 w) as [Hs _].
  destruct (check_output cfg E Ip179 w) as [cmd w']. simpl in *. auto.
Qed.

#[local] Hint Resolve contained_draw_line contained_get_network_info_call : contained.

Lemma contained_render info_type info_value :
  contained (render float format_f cfg E info_type info_value).
Proof. unfold render. repeat contained_step. Qed.

#[local] Hint Resolve contained_render : contained.

Lemma contained_tick_body : contained (tick_body float format_f cfg E).
Proof.
  unfold tick_body.
  do 4 contained_step.
  { apply contained_lift, rotate_raises. }
  do 2 contained_step.
  { apply contained_lift, current_info_raises. }
  repeat contained_step.
Qed.

(** An ordinary iteration ends in the sleep and hands over to the next
    one, whatever was raised inside its body. *)
Lemma iteration_ordinary w :
  (0 <= LOOPTIME cfg)%Q ->
  exists w',
    iteration float format_f cfg E w = (Ok tt, w') /\
    slept w' = LOOPTIME cfg :: slept w.
Proof.
  intros Hpos. unfold iteration, sleep, try_.
  apply Qle_bool_iff in Hpos. rewrite Hpos.
  unfold mbind, action_bind, abind.
  destruct (contained_tick_body w) as [Hs Hr].
  destruct HE as [Hsig _]. rewrite Hsig.
  destruct (tick_body float format_f cfg E w) as [[[]|e] w1]; simpl in *.
  - destruct (decide (None = Some Sleep365)); [discriminate|].
    eexists. split; [reflexivity|]. simpl. congruence.
  - rewrite Hr. simpl.
    destruct (decide (None = Some Sleep365)); [discriminate|].
    eexists. split; [reflexivity|]. simpl. congruence.
Qed.

End OrdinaryIteration.

(** *** The rotation inside the loop *)

Lemma keeps_rot_ret {A} (a : A) : keeps_rot (mret a : action A).
Proof. intros w. reflexivity. Qed.

Lemma keeps_rot_bind {A B} (m : action A) (k : A -> action B) :
  keeps_rot m -> (forall a, keeps_rot (k a)) -> keeps_rot (mbind k m).
Proof.
  intros Hm Hk w. unfold mbind, action_bind, abind.
  specialize (Hm w). destruct (m w) as [[a|e] w1]; simpl in *; [|exact Hm].
  rewrite <- Hm. apply Hk.
Qed.

Lemma keeps_rot_try {A} h (body handler_body : action A) :
  keeps_rot body -> keeps_rot handler_body ->
  keeps_rot (try_ h body handler_body).
Proof.
  intros Hb Hh w. unfold try_. specialize (Hb w).
  destruct (body w) as [[a|e] w1]; simpl in *; [exact Hb|].
  destruct (catches h e); simpl; [|exact Hb].
  rewrite <- Hb. apply Hh.
Qed.

Lemma keeps_rot_lift {A} (r : result A) : keeps_rot (lift r).
Proof. intros w. reflexivity. Qed.

Lemma keeps_rot_raise {A} e : keeps_rot (araise e : action A).
Proof. intros w. reflexivity. Qed.

Lemma keeps_rot_get {A} (f : world -> A) : keeps_rot (get f).
Proof. intros w. reflexivity. Qed.

Lemma keeps_rot_set_image c : keeps_rot (set_image c).
Proof. intros w. reflexivity. Qed.

Lemma keeps_rot_set_buffer c : keeps_rot (set_buffer c).
Proof. intros w. reflexivity. Qed.

Lemma keeps_rot_push_shown c : keeps_rot (push_shown c).
Proof. intros w. reflexivity. Qed.

Lemma keeps_rot_call_in_handler E s : keeps_rot (call_in_handler E s).
Proof. intros w. unfold call_in_handler. destruct (fails E s); reflexivity. Qed.

Create HintDb keeps_rot.

#[local] Hint Resolve keeps_rot_ret keeps_rot_lift keeps_rot_raise
  keeps_rot_get keeps_rot_set_image keeps_rot_set_buffer
  keeps_rot_push_shown keeps_rot_call_in_handler : keeps_rot.

Ltac keeps_rot_step :=
  match goal with
  | |- keeps_rot (mbind _ _) => apply keeps_rot_bind; [|intros ?]
  | |- keeps_rot (try_ _ _ _) => apply keeps_rot_try
  | |- keeps_rot (aret _) => apply (keeps_rot_ret (A:=_))
  | |- keeps_rot (let '(_, _) := ?p in _) => destruct p
  | |- keeps_rot (if ?b then _ else _) => destruct b
  | |- keeps_rot (match ?x with _ => _ end) => destruct x
  | |- _ => solve [eauto with keeps_rot]
  end.

Section RotationInLoop.

Variable float : string -> result Q.
Variable format_f : nat -> Q -> string.
Variable cfg : config.
Variable E : env.

(** The drawing and device statements, for either way of calling. *)
Section Calls.

Variable c : site -> action unit.
Hypothesis Hc : forall s, keeps_rot (c s).

Lemma keeps_rot_fill_black s : keeps_rot (fill_black c s).
Proof. unfold fill_black. repeat keeps_rot_step. Qed.

Lemma keeps_rot_draw_text s x y str f : keeps_rot (draw_text c s x y str f).
Proof. unfold draw_text. repeat keeps_rot_step. Qed.

Lemma keeps_rot_oled_image s : keeps_rot (oled_image c s).
Proof. unfold oled_image. repeat keeps_rot_step. Qed.

Lemma keeps_rot_oled_show s : keeps_rot (oled_show c s).
Proof. unfold oled_show. repeat keeps_rot_step. Qed.

End Calls.

#[local] Hint Resolve keeps_rot_fill_black keeps_rot_draw_text
  keeps_rot_oled_image keeps_rot_oled_show : keeps_rot.

Lemma keeps_rot_signal_handler : keeps_rot (signal_handler cfg E).
Proof.
  unfold signal_handler, show_offline_screen. repeat keeps_rot_step.
Qed.

Lemma keeps_rot_call s : keeps_rot (call cfg E s).
Proof.
  intros w. unfold call. destruct (decide _).
  - apply keeps_rot_signal_handler.
  - apply keeps_rot_call_in_handler.
Qed.

#[local] Hint Resolve keeps_rot_call : keeps_rot.

Lemma keeps_rot_check_output s : keeps_rot (check_output cfg E s).
Proof. unfold check_output. repeat keeps_rot_step. Qed.

#[local] Hint Resolve keeps_rot_check_output : keeps_rot.

Lemma keeps_rot_draw_icon s x y key : keeps_rot (draw_icon cfg E s x y key).
Proof. unfold draw_icon. repeat keeps_rot_step. Qed.

#[local] Hint Resolve keeps_rot_draw_icon : keeps_rot.

Lemma keeps_rot_draw_line s y key str : keeps_rot (draw_line cfg E s y key str).
Proof. unfold draw_line. repeat keeps_rot_step. Qed.

#[local] Hint Resolve keeps_rot_draw_line : keeps_rot.

Lemma keeps_rot_render info_type info_value :
  keeps_rot (render float format_f cfg E info_type info_value).
Proof. unfold render. repeat keeps_rot_step. Qed.

(** What a tick of the loop does to the two globals, for the fact list
    that [get_network_info] returned in that tick: a tick that runs to
    its end is a [rotation_tick]; a tick that raises has either left the
    globals alone or done the rotation step without the increment. *)
Lemma tick_body_rotation w :
  exists cmd,
    match tick_body float format_f cfg E w with
    | (Ok _, w') =>
        rotation_tick (ROTATION_INTERVAL cfg)
          (get_network_info (HOSTNAME cfg) cmd) (rot w) = Ok (rot w')
    | (Raise _, w') =>
        rot w' = rot w \/
        rotate (ROTATION_INTERVAL cfg)
          (get_network_info (HOSTNAME cfg) cmd) (rot w) = Ok (rot w')
    end.
Proof.
  unfold tick_body, mbind, action_bind, abind.
  pose proof (keeps_rot_fill_black _ keeps_rot_call Rect255 w) as H1.
  destruct (fill_black (call cfg E) Rect255 w) as [[[]|e] w1]; simpl in H1;
    [|exists (Raise e); left; exact H1].
  unfold get_network_info_call.
  pose proof (keeps_rot_check_output Ip179 w1) as H2.
  destruct (check_output cfg E Ip179 w1) as [cmd w2]. simpl in H2.
  exists cmd. unfold get, lift, rotation_tick. rewrite <- H1, <- H2.
  destruct (rotate _ _ (rot w2)) as [r'|e]; simpl; [|left; reflexivity].
  destruct (current_info _ r') as [[info_type info_value]|e]; simpl;
    [|right; reflexivity].
  match goal with
  | |- context [render _ _ _ _ _ _ ?w3] =>
      pose proof (keeps_rot_render info_type info_value w3) as H3;
      destruct (render float format_f cfg E info_type info_value w3)
        as [[[]|e] w4]
  end; simpl in *.
  - rewrite H3. reflexivity.
  - right. rewrite H3. reflexivity.
Qed.

End RotationInLoop.

(** The frame of a quiet tick under the default configuration without
    icons: the four lines of the end-to-end example of the
    specification. *)
Example quiet_frame :
  map text_str
    (image (snd (tick_body Fixtures.float Fixtures.format_f
                   (Fixtures.default_config "pi-test" false)
                   Fixtures.quiet world_init))) =
    ["pi-test"; "0.42"; "45C"; "1.2/4.0GB 30%"; "5/32GB 16%"].
Proof. vm_compute. reflexivity. Qed.

(** C4: over any number of ticks without a termination signal, whatever
    instance of [Exception] is raised, and wherever in the tick body,
    it is swallowed: every tick is followed by its sleep of the refresh
    interval and by the next tick, and the process is still running
    inside the loop after the last of them. *)
Theorem tick_failures_contained (float : string -> result Q)
    (format_f : nat -> Q -> string) (cfg : config) (Es : list env) (w : world) :
  (0 <= LOOPTIME cfg)%Q ->
  Forall ordinary Es ->
  exists w',
    main_loop float format_f cfg Es w = Running w' /\
    slept w' = repeat (LOOPTIME cfg) (length Es) ++ slept w.
Proof.
  intros Hpos HEs. revert w.
  induction HEs as [|E Es HE HEs IH]; intros w.
  - exists w. split; reflexivity.
  - destruct (iteration_ordinary float format_f cfg E HE w Hpos)
      as (w1 & Hit & Hs1).
    destruct (IH w1) as (w2 & Hloop & Hs2).
    exists w2. cbn [main_loop]. rewrite Hit. split; [exact Hloop|].
    rewrite Hs2, Hs1. cbn [length repeat].
    rewrite repeat_cons, <- app_assoc. reflexivity.
Qed.

Lemma tick_failures_contained_witness :
  exists w',
    main_loop Fixtures.float Fixtures.format_f
      (Fixtures.default_config "pi" true)
      [Fixtures.failing Show357 OSError;
       Fixtures.failing Rect255 MemoryError;
       Fixtures.failing Temp279 CalledProcessError;
       Fixtures.quiet] world_init = Running w' /\
    slept w' = [1; 1; 1; 1]%Q.
Proof.
  apply (tick_failures_contained Fixtures.float Fixtures.format_f
           (Fixtures.default_config "pi" true)
           [Fixtures.failing Show357 OSError;
            Fixtures.failing Rect255 MemoryError;
            Fixtures.failing Temp279 CalledProcessError;
            Fixtures.quiet] world_init).
  - discriminate.
  - do 3 (apply List.Forall_cons;
            [split; [reflexivity|];
             intros s e; simpl; destruct (decide _); intros [= <-];
             reflexivity|]).
    apply List.Forall_cons; [split; [reflexivity|]; intros s e [=]|].
    apply List.Forall_nil.
Defined.

(** ** The shutdown handler *)

Section Shutdown.

Variable float : string -> result Q.
Variable format_f : nat -> Q -> string.
Variable cfg : config.
Variable E : env.

(** The handler always ends in [sys.exit(0)], whatever the farewell
    frame raised. *)
Lemma signal_handler_exits w :
  exists w', signal_handler cfg E w = (Raise (SystemExit 0), w').
Proof.
  unfold signal_handler, try_, mbind, action_bind, abind.
  destruct (show_offline_screen cfg E w) as [[[]|e] w1]; simpl; eauto.
Qed.

(** When nothing fails in the handler, the frame on the panel is the
    farewell frame. *)
Lemma signal_handler_farewell w glyph :
  (forall s, fails E s = None) ->
  (ICONS_AVAILABLE cfg = true -> ICONS cfg !! "offline" = Some glyph) ->
  exists w',
    signal_handler cfg E w = (Raise (SystemExit 0), w') /\
    shown w' = offline_frame cfg glyph :: shown w /\
    slept w' = slept w /\ rot w' = rot w.
Proof.
  intros Hf Hicon.
  unfold signal_handler, try_, show_offline_screen, offline_frame,
    fill_black, draw_text, oled_image, oled_show, call_in_handler,
    icons_getitem, mbind, action_bind, abind.
  rewrite ?Hf.
  destruct (ICONS_AVAILABLE cfg).
  - rewrite (Hicon eq_refl). simpl. rewrite ?Hf. simpl.
    eexists. repeat split.
  - simpl. rewrite ?Hf. simpl. eexists. repeat split.
Qed.

(** Inside [get_network_info], the [SystemExit] of the handler is one
    more exception for the bare [except]: the call returns the hostname
    fact and raises nothing. *)
Lemma signal_swallowed_in_enumeration w :
  signal E = Some Ip179 ->
  exists w',
    get_network_info_call cfg E w = (Ok [("hostname", HOSTNAME cfg)], w').
Proof.
  intros Hsig. unfold get_network_info_call, check_output, call.
  unfold mbind, action_bind, abind. rewrite Hsig.
  destruct (decide (Some Ip179 = Some Ip179)); [|congruence].
  destruct (signal_handler_exits w) as [w' ->]. simpl. eauto.
Qed.

(** The body of the loop does not look at a signal that arrives during
    the sleep. *)
Lemma tick_body_signal_at_sleep f o :
  tick_body float format_f cfg
    {| fails := f; output := o; signal := Some Sleep365 |} =
  tick_body float format_f cfg
    {| fails := f; output := o; signal := None |}.
Proof. reflexivity. Qed.

End Shutdown.

(** During the sleep, the [SystemExit] of the handler reaches the top
    level: the process exits with status 0. *)
Lemma signal_during_sleep_exits (float : string -> result Q)
    (format_f : nat -> Q -> string) (cfg : config) (E : env)
    (Es : list env) w :
  (0 <= LOOPTIME cfg)%Q ->
  signal E = Some Sleep365 ->
  (forall s e, fails E s = Some e -> is_Exception e = true) ->
  exists w', main_loop float format_f cfg (E :: Es) w = Exited 0 w'.
Proof.
  intros Hpos Hsig Hf. destruct E as [f o sg]. simpl in Hsig, Hf. subst sg.
  cbn [main_loop]. unfold iteration, sleep.
  apply Qle_bool_iff in Hpos. rewrite Hpos. cbn [signal].
  rewrite tick_body_signal_at_sleep.
  unfold mbind, action_bind, abind, try_.
  assert (ordinary {| fails := f; output := o; signal := None |}) as Hord
    by (split; auto).
  destruct (contained_tick_body float format_f cfg _ Hord w) as [_ Hr].
  destruct (tick_body float format_f cfg _ w) as [[[]|e] w1]; simpl in *.
  - destruct (decide (Some Sleep365 = Some Sleep365)); [|congruence].
    destruct (signal_handler_exits cfg
                {| fails := f; output := o; signal := Some Sleep365 |} w1)
      as [w' ->].
    eauto.
  - rewrite Hr. simpl.
    destruct (decide (Some Sleep365 = Some Sleep365)); [|congruence].
    destruct (signal_handler_exits cfg
                {| fails := f; output := o; signal := Some Sleep365 |} w1)
      as [w' ->].
    eauto.
Qed.

(** In a quiet iteration under the default configuration, a signal at
    any place of the loop other than the enumeration ends the process
    with status 0 and the farewell frame on the panel. *)
Lemma shutdown_at_other_places (s : site) :
  In s [Rect255; Load272; Temp279; Mem286; Disk298; Line1; Line2; Line3;
        Line4; Image356; Show357; Sleep365] ->
  exists w,
    main_loop Fixtures.float Fixtures.format_f
      (Fixtures.default_config "pi" true)
      [Fixtures.signalled s; Fixtures.quiet] world_init = Exited 0 w /\
    head (shown w) =
      Some (offline_frame (Fixtures.default_config "pi" true) "O").
Proof.
  simpl. intros H.
  repeat (destruct H as [<-|H]; [eexists; split; vm_compute; reflexivity|]).
  contradiction.
Qed.

(** C5 fails on the code for a signal that arrives while the loop is
    inside [get_network_info]: the handler puts the farewell frame on
    the panel and calls [sys.exit(0)], the bare [except] of
    [get_network_info] swallows the [SystemExit], the tick goes on, draws
    over the farewell frame and shows the result, sleeps, and the next
    tick runs: the process has not exited. *)
Theorem shutdown_signal_swallowed_in_enumeration :
  exists w,
    main_loop Fixtures.float Fixtures.format_f
      (Fixtures.default_config "pi" true)
      [Fixtures.signalled Ip179; Fixtures.quiet] world_init = Running w /\
    slept w = [1; 1]%Q /\
    length (shown w) = 4 /\
    head (shown w) <>
      Some (offline_frame (Fixtures.default_config "pi" true) "O").
Proof.
  eexists. split; [vm_compute; reflexivity|].
  split; [reflexivity|]. split; [reflexivity|].
  vm_compute. discriminate.
Qed.

(** * Further properties of the code *)

(** ** The cadence of the rotation, for any interval and any list *)

Lemma cadence_arith (interval m : Z) :
  (1 <= interval)%Z -> (0 <= m)%Z ->
  (if (m mod interval + 1 >=? interval)%Z
   then ((m + 1) / interval = m / interval + 1 /\ (m + 1) mod interval = 0)
   else ((m + 1) / interval = m / interval /\
         (m + 1) mod interval = m mod interval + 1))%Z.
Proof.
  intros Hi Hm.
  pose proof (Z.div_mod m interval ltac:(lia)) as Hdm.
  pose proof (Z.mod_pos_bound m interval ltac:(lia)) as Hb.
  destruct (m mod interval + 1 >=? interval)%Z eqn:Hge.
  - apply geb_true_iff in Hge.
    assert (m + 1 = (m / interval + 1) * interval + 0)%Z as Heq by lia.
    split.
    + symmetry. apply (Z.div_unique_pos (m + 1) interval _ 0); lia.
    + symmetry. apply (Z.mod_unique_pos (m + 1) interval (m / interval + 1)); lia.
  - apply geb_false_iff in Hge.
    split.
    + symmetry.
      apply (Z.div_unique_pos (m + 1) interval _ (m mod interval + 1)); lia.
    + symmetry.
      apply (Z.mod_unique_pos (m + 1) interval (m / interval)); lia.
Qed.

(** With a rotation interval of at least one tick and a constant,
    non-empty fact list, the cursor after [k + 1] ticks from the start is
    [(k / interval) mod len(facts)] and the counter is [k mod interval +
    1]: every fact is shown for [interval] ticks in a row, in the order of
    the list, and the list is gone through again from its head. *)
Theorem rotation_cadence (interval : Z) (facts : list fact) (k : nat) :
  (1 <= interval)%Z ->
  facts <> [] ->
  rotation_ticks (S k) interval facts rotation_init =
    Ok {| rotation_index :=
            (Z.of_nat k / interval) mod Z.of_nat (length facts);
          loop_counter := Z.of_nat k mod interval + 1 |}.
Proof.
  intros Hi Hne.
  assert (0 < Z.of_nat (length facts))%Z as Hlen.
  { destruct facts; [congruence|]. simpl length. lia. }
  induction k as [|k IH].
  - cbn [rotation_ticks]. rewrite rotation_tick_nonempty by exact Hne.
    cbn [rotation_init rotation_index loop_counter].
    destruct (0 >=? interval)%Z eqn:Hge; [apply geb_true_iff in Hge; lia|].
    simpl mbind. unfold result_bind, Py.bind. cbn [rotation_ticks].
    change (Z.of_nat 0) with 0%Z.
    rewrite Z.div_0_l, Z.mod_0_l, Z.mod_0_l by lia. reflexivity.
  - rewrite rotation_ticks_snoc, IH. simpl mbind. unfold result_bind, Py.bind.
    rewrite rotation_tick_nonempty by exact Hne.
    cbn [rotation_index loop_counter].
    pose proof (cadence_arith interval (Z.of_nat k) Hi ltac:(lia)) as H.
    replace (Z.of_nat (S k)) with (Z.of_nat k + 1)%Z by lia.
    destruct (Z.of_nat k mod interval + 1 >=? interval)%Z;
      destruct H as [-> ->].
    + rewrite Zplus_mod_idemp_l. reflexivity.
    + reflexivity.
Qed.

Lemma rotation_cadence_witness :
  rotation_ticks 11 5 [("hostname", "pi"); ("lan", "10.0.0.2"); ("wifi", "10.0.0.4")]
    rotation_init = Ok {| rotation_index := 2; loop_counter := 1 |}.
Proof.
  apply (rotation_cadence 5
           [("hostname", "pi"); ("lan", "10.0.0.2"); ("wifi", "10.0.0.4")] 10).
  - lia.
  - discriminate.
Defined.

(** With a rotation interval of zero or less, the rotation is due at
    every tick, the first one included: after [k + 1] ticks the cursor is
    [(k + 1) mod len(facts)], so every fact is shown for one tick. *)
Theorem rotation_every_tick (interval : Z) (facts : list fact) (k : nat) :
  (interval <= 0)%Z ->
  facts <> [] ->
  rotation_ticks (S k) interval facts rotation_init =
    Ok {| rotation_index := Z.of_nat (S k) mod Z.of_nat (length facts);
          loop_counter := 1 |}.
Proof.
  intros Hi Hne.
  assert (0 < Z.of_nat (length facts))%Z as Hlen.
  { destruct facts; [congruence|]. simpl length. lia. }
  induction k as [|k IH].
  - cbn [rotation_ticks]. rewrite rotation_tick_nonempty by exact Hne.
    cbn [rotation_init rotation_index loop_counter].
    destruct (0 >=? interval)%Z eqn:Hge; [|apply geb_false_iff in Hge; lia].
    reflexivity.
  - rewrite rotation_ticks_snoc, IH. simpl mbind. unfold result_bind, Py.bind.
    rewrite rotation_tick_nonempty by exact Hne.
    cbn [rotation_index loop_counter].
    destruct (1 >=? interval)%Z eqn:Hge; [|apply geb_false_iff in Hge; lia].
    rewrite Zplus_mod_idemp_l.
    replace (Z.of_nat (S (S k))) with (Z.of_nat (S k) + 1)%Z by lia.
    reflexivity.
Qed.

Lemma rotation_every_tick_witness :
  rotation_ticks 5 0 [("hostname", "pi"); ("lan", "10.0.0.2"); ("wifi", "10.0.0.4")]
    rotation_init = Ok {| rotation_index := 2; loop_counter := 1 |}.
Proof.
  apply (rotation_every_tick 0
           [("hostname", "pi"); ("lan", "10.0.0.2"); ("wifi", "10.0.0.4")] 4).
  - lia.
  - discriminate.
Defined.

(** ** What the facts of [get_network_info] look like, for any text *)

Lemma is_token_String c (w : string) :
  PyStr.is_space c = false ->
  all_chars (fun c => negb (PyStr.is_space c)) w = true ->
  is_token (String c w) = true.
Proof.
  intros Hc Hw. unfold is_token. simpl. rewrite Hc, Hw. reflexivity.
Qed.

Lemma split_tokens (s : string) :
  Forall (fun t => is_token t = true) (PyStr.split s).
Proof.
  induction s as [|c s IH]; [constructor|].
  rewrite split_String.
  destruct (PyStr.is_space c) eqn:Hc; [exact IH|].
  destruct s as [|c' s'].
  - constructor; [|constructor]. apply is_token_String; [exact Hc|reflexivity].
  - destruct (PyStr.is_space c') eqn:Hc'.
    + constructor; [|exact IH]. apply is_token_String; [exact Hc|reflexivity].
    + destruct (PyStr.split (String c' s')) as [|w ws].
      * constructor; [|constructor].
        apply is_token_String; [exact Hc|reflexivity].
      * inversion IH as [|? ? Hw Hws]; subst.
        constructor; [|exact Hws].
        apply is_token_String; [exact Hc|]. apply is_token_chars, Hw.
Qed.

Lemma line_facts_kinds (line : string) :
  Forall (fun f : fact =>
            (fst f = "lan" \/ fst f = "wifi") /\ is_token (snd f) = true)
         (line_facts line).
Proof.
  unfold line_facts. destruct (PyStr.truthy line); [|constructor].
  pose proof (split_tokens line) as Htok.
  destruct (PyStr.split line) as [|interface [|ip rest]]; try constructor.
  inversion Htok as [|? ? _ Htok']; subst.
  inversion Htok' as [|? ? Hip _]; subst.
  destruct (existsb _ _); [constructor|].
  destruct (_ || _); [constructor; [auto|constructor]|].
  destruct (_ || _); [constructor; [auto|constructor]|constructor].
Qed.

(** Whatever the enumeration command printed or raised, every fact after
    the hostname fact has kind ["lan"] or ["wifi"], and its value is one
    non-empty word without white space. *)
Theorem network_facts_kinds (hostname : string) (cmd : result string) :
  Forall (fun f : fact =>
            (fst f = "lan" \/ fst f = "wifi") /\ is_token (snd f) = true)
         (tail (get_network_info hostname cmd)).
Proof.
  destruct cmd as [raw|e]; simpl; [|constructor].
  induction (PyStr.split_on "010" (PyStr.strip raw)) as [|line lines IH];
    simpl; [constructor|].
  apply Forall_app. split; [apply line_facts_kinds|exact IH].
Qed.

(** ** Memory and disk figures *)

Lemma getitem_0 {A} (a : A) (l : list A) : getitem (a :: l) 0 = Ok a.
Proof.
  unfold getitem. cbn [length]. rewrite Nat2Z.inj_succ.
  destruct (Z.ltb_spec 0 0); [lia|].
  destruct (Z.leb_spec 0 0); [|lia].
  destruct (Z.ltb_spec 0 (Z.succ (Z.of_nat (length l)))); [|lia].
  reflexivity.
Qed.

Lemma getitem_1 {A} (a b : A) (l : list A) : getitem (a :: b :: l) 1 = Ok b.
Proof.
  unfold getitem. cbn [length]. rewrite !Nat2Z.inj_succ.
  destruct (Z.ltb_spec 1 0); [lia|].
  destruct (Z.leb_spec 0 1); [|lia].
  destruct (Z.ltb_spec 1 (Z.succ (Z.succ (Z.of_nat (length l))))); [|lia].
  reflexivity.
Qed.

Lemma getitem_2 {A} (a b c : A) (l : list A) :
  getitem (a :: b :: c :: l) 2 = Ok c.
Proof.
  unfold getitem. cbn [length]. rewrite !Nat2Z.inj_succ.
  destruct (Z.ltb_spec 2 0); [lia|].
  destruct (Z.leb_spec 0 2); [|lia].
  destruct (Z.ltb_spec 2 (Z.succ (Z.succ (Z.succ (Z.of_nat (length l))))));
    [|lia].
  reflexivity.
Qed.

(** The memory figures are all three read from the text, or all three
    the defaults: when the text has fewer than three words, or its third
    word is not a number, the first two words are dropped as well. *)
Theorem mem_of_all_or_nothing (float : string -> result Q) (mem_cmd : string) :
  mem_of float mem_cmd = ("0", "0", 0%Q) \/
  exists used total third rest percent,
    PyStr.split (PyStr.strip mem_cmd) = used :: total :: third :: rest /\
    float third = Ok percent /\
    mem_of float mem_cmd = (used, total, percent).
Proof.
  unfold mem_of.
  destruct (PyStr.split (PyStr.strip mem_cmd)) as [|u [|t [|p rest]]].
  - left. reflexivity.
  - left. reflexivity.
  - left. reflexivity.
  - rewrite getitem_0, getitem_1, getitem_2. simpl mbind.
    unfold result_bind, Py.bind.
    destruct (float p) as [v|e] eqn:Hf; [|left; reflexivity].
    right. exists u, t, p, rest, v. auto.
Qed.

Lemma rstrip_by_none p (s : string) :
  all_chars (fun c => negb (p c)) s = true -> PyStr.rstrip_by p s = s.
Proof.
  induction s as [|c s IH]; simpl; [reflexivity|].
  intros [Hc Hs]%andb_prop. rewrite (IH Hs).
  apply negb_true_iff in Hc. rewrite Hc. destruct s; reflexivity.
Qed.

Lemma rstrip_char_suffix ch (s : string) :
  all_chars (fun c => negb (Ascii.eqb ch c)) s = true ->
  PyStr.rstrip_char ch (s +:+ String ch EmptyString) = s /\
  PyStr.rstrip_char ch s = s.
Proof.
  intros Hs. unfold PyStr.rstrip_char. rewrite rstrip_by_app.
  cbn [PyStr.rstrip_by]. rewrite Ascii.eqb_refl.
  rewrite (rstrip_by_none _ _ Hs). auto.
Qed.

Lemma is_token_app (t s : string) :
  is_token t = true ->
  all_chars (fun c => negb (PyStr.is_space c)) s = true ->
  is_token (t +:+ s) = true.
Proof.
  intros Ht Hs. destruct (is_token_inv t Ht) as (c & t' & -> & Hc & Ht').
  rewrite app_String. apply is_token_String; [exact Hc|].
  rewrite all_chars_app, Ht', Hs. reflexivity.
Qed.

(** Three words on one line, as [awk] prints them, with or without the
    newline that ends the line. *)
Lemma split_strip_three (a b c : string) :
  is_token a = true -> is_token b = true -> is_token c = true ->
  PyStr.split (PyStr.strip (a +:+ " " +:+ b +:+ " " +:+ c)) = [a; b; c] /\
  PyStr.split (PyStr.strip (a +:+ " " +:+ b +:+ " " +:+ c +:+ String "010" ""))
    = [a; b; c].
Proof.
  intros Ha Hb Hc.
  assert (PyStr.split (a +:+ " " +:+ b +:+ " " +:+ c) = [a; b; c]) as Hsplit.
  { change (" " +:+ b +:+ " " +:+ c) with (String " " (b +:+ " " +:+ c)).
    rewrite (split_token_space _ _ Ha).
    change (" " +:+ c) with (String " " c).
    rewrite (split_token_space _ _ Hb), (split_token _ Hc). reflexivity. }
  assert (PyStr.rstrip (a +:+ " " +:+ b +:+ " " +:+ c) =
          a +:+ " " +:+ b +:+ " " +:+ c) as Hr.
  { replace (a +:+ " " +:+ b +:+ " " +:+ c)
      with ((a +:+ " " +:+ b +:+ " ") +:+ c)
      by (rewrite !append_assoc; reflexivity).
    apply rstrip_ends_token, Hc. }
  unfold PyStr.strip. rewrite !(lstrip_starts_token _ _ Ha).
  split.
  - rewrite Hr. exact Hsplit.
  - replace (a +:+ " " +:+ b +:+ " " +:+ c +:+ String "010" "")
      with ((a +:+ " " +:+ b +:+ " " +:+ c) +:+ String "010" "")
      by (rewrite !append_assoc; reflexivity).
    unfold PyStr.rstrip in *. rewrite rstrip_by_app.
    change (PyStr.rstrip_by PyStr.is_space (String "010" "")) with "".
    cbv iota. rewrite Hr. exact Hsplit.
Qed.

(** The memory text [used total percent] of the command gives back its
    first two words as they are and its third as a number. *)
Theorem mem_of_fields (float : string -> result Q)
    (used total percent : string) (v : Q) :
  is_token used = true -> is_token total = true -> is_token percent = true ->
  float percent = Ok v ->
  mem_of float (used +:+ " " +:+ total +:+ " " +:+ percent) = (used, total, v).
Proof.
  intros Hu Ht Hp Hf. unfold mem_of.
  destruct (split_strip_three used total percent Hu Ht Hp) as [-> _].
  rewrite getitem_0, getitem_1, getitem_2. simpl mbind.
  unfold result_bind, Py.bind. rewrite Hf. reflexivity.
Qed.

Lemma mem_of_fields_witness :
  mem_of Fixtures.float ("1.2" +:+ " " +:+ "4.0" +:+ " " +:+ "30") =
    ("1.2", "4.0", 30%Q).
Proof.
  apply (mem_of_fields Fixtures.float "1.2" "4.0" "30" 30); reflexivity.
Defined.

(** The disk line [used total percent%] of [df -h]: a size that ends in
    [G] loses that letter, a size in another unit is kept as it is (the
    frame still writes [GB] after it), and the percentage loses its
    sign. *)
Theorem disk_of_fields (float : string -> result Q)
    (used total percent : string) (v : Q) :
  is_token used = true -> is_token total = true -> is_token percent = true ->
  all_chars (fun c => negb (Ascii.eqb "G" c)) used = true ->
  all_chars (fun c => negb (Ascii.eqb "G" c)) total = true ->
  all_chars (fun c => negb (Ascii.eqb "%" c)) percent = true ->
  float percent = Ok v ->
  disk_of float ((used +:+ "G") +:+ " " +:+ (total +:+ "G") +:+ " " +:+
                 (percent +:+ "%") +:+ String "010" "") = (used, total, v) /\
  disk_of float (used +:+ " " +:+ total +:+ " " +:+
                 (percent +:+ "%") +:+ String "010" "") = (used, total, v).
Proof.
  intros Hu Ht Hp HuG HtG Hpp Hf. unfold disk_of.
  assert (is_token (used +:+ "G") = true) as HuT by (apply is_token_app; auto).
  assert (is_token (total +:+ "G") = true) as HtT by (apply is_token_app; auto).
  assert (is_token (percent +:+ "%") = true) as HpT by (apply is_token_app; auto).
  destruct (split_strip_three _ _ _ HuT HtT HpT) as [_ ->].
  destruct (split_strip_three _ _ _ Hu Ht HpT) as [_ ->].
  rewrite !getitem_0, !getitem_1, !getitem_2. simpl mbind.
  unfold result_bind, Py.bind.
  destruct (rstrip_char_suffix "G" used HuG) as [-> ->].
  destruct (rstrip_char_suffix "G" total HtG) as [-> ->].
  destruct (rstrip_char_suffix "%" percent Hpp) as [-> _].
  rewrite Hf. auto.
Qed.

Lemma disk_of_fields_witness :
  disk_of Fixtures.float
    (("5" +:+ "G") +:+ " " +:+ ("32" +:+ "G") +:+ " " +:+ ("16" +:+ "%") +:+
     String "010" "") = ("5", "32", 16%Q) /\
  disk_of Fixtures.float
    ("5" +:+ " " +:+ "32" +:+ " " +:+ ("16" +:+ "%") +:+ String "010" "") =
    ("5", "32", 16%Q).
Proof.
  apply (disk_of_fields Fixtures.float "5" "32" "16" 16); reflexivity.
Defined.

(** ** Ticks that fail and the rotation counter *)

(** The counter of the rotation counts the ticks that ran to their end:
    such a tick leaves it at 1 when the rotation was due and one higher
    otherwise; a tick that raised has not incremented it, whatever was
    raised and wherever: it is as it was, or it is 0 when the rotation was
    due and done before the failure. *)
Theorem tick_counts_only_when_completed (float : string -> result Q)
    (format_f : nat -> Q -> string) (cfg : config) (E : env) (w : world) :
  match tick_body float format_f cfg E w with
  | (Ok _, w') =>
      loop_counter (rot w') =
        (if (loop_counter (rot w) >=? ROTATION_INTERVAL cfg)%Z then 1
         else loop_counter (rot w) + 1)%Z
  | (Raise _, w') =>
      loop_counter (rot w') = loop_counter (rot w) \/
      ((ROTATION_INTERVAL cfg <= loop_counter (rot w))%Z /\
       loop_counter (rot w') = 0%Z)
  end.
Proof.
  destruct (tick_body_rotation float format_f cfg E w) as [cmd H].
  destruct (get_network_info_cons (HOSTNAME cfg) cmd) as [rest Hfacts].
  destruct (tick_body float format_f cfg E w) as [[[]|e] w'].
  - rewrite rotation_tick_nonempty in H by (rewrite Hfacts; discriminate).
    injection H as H. rewrite <- H.
    destruct (loop_counter (rot w) >=? ROTATION_INTERVAL cfg)%Z; reflexivity.
  - destruct H as [H|H]; [left; rewrite H; reflexivity|].
    unfold rotate in H.
    destruct (loop_counter (rot w) >=? ROTATION_INTERVAL cfg)%Z eqn:Hge.
    + right. split; [apply geb_true_iff, Hge|].
      rewrite mod_nonempty in H by (rewrite Hfacts; discriminate).
      simpl in H. injection H as H. rewrite <- H. reflexivity.
    + left. injection H as H. rewrite <- H. reflexivity.
Qed.

(** ** The farewell frame *)

(** What the handler leaves behind, whatever its places raise: it ends
    in [sys.exit(0)], the globals of the rotation and the record of the
    sleeps are as before, and the panel has no new frame or the farewell
    frame with the glyph of [ICONS["offline"]]. *)
Lemma signal_handler_outcome (cfg : config) (E : env) (w : world) :
  exists w',
    signal_handler cfg E w = (Raise (SystemExit 0), w') /\
    rot w' = rot w /\
    slept w' = slept w /\
    (shown w' = shown w \/
     exists glyph,
       (ICONS_AVAILABLE cfg = true -> ICONS cfg !! "offline" = Some glyph) /\
       shown w' = offline_frame cfg glyph :: shown w).
Proof.
  unfold signal_handler, try_, show_offline_screen, offline_frame,
    fill_black, draw_text, oled_image, oled_show, call_in_handler,
    icons_getitem, mbind, action_bind, abind, lift, get, set_image,
    set_buffer, push_shown, araise, aret.
  destruct (fails E Rect217), (fails E Text220), (fails E Text224),
    (fails E Image229), (fails E Show230), (ICONS_AVAILABLE cfg) eqn:Hicons;
    try destruct (ICONS cfg !! "offline") as [glyph|] eqn:Hglyph;
    simpl; eexists;
    (split; [reflexivity|]); (split; [reflexivity|]); (split; [reflexivity|]);
    first [ left; reflexivity
          | right; match goal with g : string |- _ => exists g end;
            split; [intros _; reflexivity | reflexivity]
          | right; exists EmptyString;
            split; [intros [=] | reflexivity] ].
Qed.

(** The handler shows the whole farewell frame or nothing: whatever
    raises while the frame is drawn or sent, the panel gets either the
    complete frame (host name, the power glyph [ICONS["offline"]] when
    there are icons, the word OFFLINE) or no new frame at all; in both
    cases the handler ends in [sys.exit(0)] and does not touch the
    rotation or the record of the sleeps. *)
Theorem farewell_all_or_nothing (cfg : config) (E : env) (w : world) :
  exists w',
    signal_handler cfg E w = (Raise (SystemExit 0), w') /\
    rot w' = rot w /\
    slept w' = slept w /\
    (shown w' = shown w \/
     exists glyph,
       (ICONS_AVAILABLE cfg = true -> ICONS cfg !! "offline" = Some glyph) /\
       shown w' = offline_frame cfg glyph :: shown w).
Proof. apply signal_handler_outcome. Qed.

Lemma farewell_shown (cfg : config) (E : env) (w : world) (glyph : string) :
  fails E Rect217 = None -> fails E Text220 = None ->
  fails E Text224 = None -> fails E Image229 = None ->
  fails E Show230 = None ->
  (ICONS_AVAILABLE cfg = true -> ICONS cfg !! "offline" = Some glyph) ->
  exists w',
    signal_handler cfg E w = (Raise (SystemExit 0), w') /\
    shown w' = offline_frame cfg glyph :: shown w /\
    slept w' = slept w.
Proof.
  intros H1 H2 H3 H4 H5 Hicon.
  unfold signal_handler, try_, show_offline_screen, offline_frame,
    fill_black, draw_text, oled_image, oled_show, call_in_handler,
    icons_getitem, mbind, action_bind, abind.
  rewrite H1, H2, H3, H4, H5.
  destruct (ICONS_AVAILABLE cfg).
  - rewrite (Hicon eq_refl). simpl. rewrite ?H3. simpl.
    eexists. repeat split.
  - simpl. eexists. repeat split.
Qed.

(** A termination signal that arrives during the sleep of an iteration
    ends the process with status 0, whatever instance of [Exception] the
    tick before it or the drawing of the farewell frame raised, and no
    further iteration runs; the sleep that was interrupted is not
    recorded.  When nothing fails in the handler and the
    glyph [ICONS["offline"]] exists (or there are no icons), the last
    frame on the panel is the farewell frame. *)
Theorem shutdown_during_sleep (float : string -> result Q)
    (format_f : nat -> Q -> string) (cfg : config) (E : env)
    (Es : list env) (w : world) :
  (0 <= LOOPTIME cfg)%Q ->
  signal E = Some Sleep365 ->
  (forall s e, fails E s = Some e -> is_Exception e = true) ->
  exists w',
    main_loop float format_f cfg (E :: Es) w = Exited 0 w' /\
    slept w' = slept w /\
    (forall glyph,
       fails E Rect217 = None -> fails E Text220 = None ->
       fails E Text224 = None -> fails E Image229 = None ->
       fails E Show230 = None ->
       (ICONS_AVAILABLE cfg = true -> ICONS cfg !! "offline" = Some glyph) ->
       head (shown w') = Some (offline_frame cfg glyph)).
Proof.
  intros Hpos Hsig Hf.
  destruct E as [f o sg]. simpl in Hsig, Hf. subst sg.
  cbn [main_loop]. unfold iteration, sleep.
  apply Qle_bool_iff in Hpos. rewrite Hpos. cbn [signal fails].
  rewrite tick_body_signal_at_sleep.
  unfold mbind, action_bind, abind, try_.
  assert (ordinary {| fails := f; output := o; signal := None |}) as Hord
    by (split; auto).
  destruct (contained_tick_body float format_f cfg _ Hord w) as [Hs Hr].
  destruct (decide (Some Sleep365 = Some Sleep365)); [|congruence].
  set (Esig := {| fails := f; output := o; signal := Some Sleep365 |}).
  assert (forall w1, slept w1 = slept w ->
            exists w',
              signal_handler cfg Esig w1 = (Raise (SystemExit 0), w') /\
              slept w' = slept w /\
              (forall glyph,
                 f Rect217 = None -> f Text220 = None ->
                 f Text224 = None -> f Image229 = None ->
                 f Show230 = None ->
                 (ICONS_AVAILABLE cfg = true ->
                  ICONS cfg !! "offline" = Some glyph) ->
                 head (shown w') = Some (offline_frame cfg glyph))) as Hh.
  { intros w1 Hw1.
    destruct (signal_handler_outcome cfg Esig w1)
      as (w' & Heq & _ & Hslept & _).
    exists w'. split; [exact Heq|]. split; [congruence|].
    intros glyph H1 H2 H3 H4 H5 Hicon.
    destruct (farewell_shown cfg Esig w1 glyph H1 H2 H3 H4 H5 Hicon)
      as (w'' & Heq' & Hshown & _).
    rewrite Heq in Heq'. injection Heq' as <-. rewrite Hshown. reflexivity. }
  destruct (tick_body float format_f cfg _ w) as [[[]|e0] w1]; simpl in *.
  - destruct (Hh w1 Hs) as (w' & -> & Hslept & Hframe). eauto.
  - rewrite Hr. simpl.
    destruct (Hh w1 Hs) as (w' & -> & Hslept & Hframe). eauto.
Qed.

Lemma shutdown_during_sleep_witness :
  (exists w',
     main_loop Fixtures.float Fixtures.format_f
       (Fixtures.default_config "pi" true)
       [Fixtures.failing_signalled Show230 OSError Sleep365; Fixtures.quiet]
       world_init = Exited 0 w' /\
     slept w' = slept world_init) /\
  (exists w',
     main_loop Fixtures.float Fixtures.format_f
       (Fixtures.default_config "pi" true)
       [Fixtures.signalled Sleep365; Fixtures.quiet]
       world_init = Exited 0 w' /\
     head (shown w') =
       Some (offline_frame (Fixtures.default_config "pi" true) "O")).
Proof.
  split.
  - destruct (shutdown_during_sleep Fixtures.float Fixtures.format_f
                (Fixtures.default_config "pi" true)
                (Fixtures.failing_signalled Show230 OSError Sleep365)
                [Fixtures.quiet] world_init) as (w' & H1 & H2 & _).
    + discriminate.
    + reflexivity.
    + intros s e. simpl. destruct (decide _); intros [= <-]; reflexivity.
    + eauto.
  - destruct (shutdown_during_sleep Fixtures.float Fixtures.format_f
                (Fixtures.default_config "pi" true)
                (Fixtures.signalled Sleep365)
                [Fixtures.quiet] world_init) as (w' & H1 & _ & H3).
    + discriminate.
    + reflexivity.
    + intros s e [=].
    + exists w'. split; [exact H1|].
      apply H3; reflexivity.
Defined.

(** ** One tick, one frame *)

Lemma draw_on_nil w : draw_on w [] = w.
Proof. destruct w. unfold draw_on. simpl. rewrite app_nil_r. reflexivity. Qed.

Lemma draw_on_app w a b : draw_on (draw_on w a) b = draw_on w (a ++ b).
Proof. unfold draw_on. simpl. rewrite app_assoc. reflexivity. Qed.

Lemma draws_ret {A} (a : A) : draws (mret a : action A).
Proof. exists (Ok a), []. intros w. rewrite draw_on_nil. reflexivity. Qed.

Lemma draws_bind {A B} (m : action A) (k : A -> action B) :
  draws m -> (forall a, draws (k a)) -> draws (mbind k m).
Proof.
  intros (r & ops & Hm) Hk. unfold mbind, action_bind, abind.
  destruct r as [a|e].
  - destruct (Hk a) as (r2 & ops2 & Hk2).
    exists r2, (ops ++ ops2). intros w.
    rewrite Hm, Hk2, draw_on_app. reflexivity.
  - exists (Raise e), ops. intros w. rewrite Hm. reflexivity.
Qed.

Create HintDb draws.

#[local] Hint Resolve draws_ret : draws.

Ltac draws_step :=
  match goal with
  | |- draws (mbind _ _) => apply draws_bind; [|intros ?]
  | |- draws (aret _) => apply (draws_ret (A:=_))
  | |- draws (let '(_, _) := ?p in _) => destruct p
  | |- draws (if ?b then _ else _) => destruct b
  | |- draws (match ?x with _ => _ end) => destruct x
  | |- _ => solve [eauto with draws]
  end.

Section Frames.

Variable float : string -> result Q.
Variable format_f : nat -> Q -> string.
Variable cfg : config.
Variable E : env.
Hypothesis Hsignal : signal E = None.

Lemma call_no_signal s : call cfg E s = call_in_handler E s.
Proof.
  unfold call. rewrite Hsignal.
  destruct (decide (None = Some s)); [discriminate|reflexivity].
Qed.

Lemma draws_call s : draws (call cfg E s).
Proof.
  rewrite call_no_signal. unfold call_in_handler.
  destruct (fails E s) as [e|].
  - exists (Raise e), []. intros w. rewrite draw_on_nil. reflexivity.
  - exists (Ok tt), []. intros w. rewrite draw_on_nil. reflexivity.
Qed.

Lemma draws_draw_text s x y str f :
  draws (draw_text (call cfg E) s x y str f).
Proof.
  unfold draw_text, mbind, action_bind, abind. rewrite call_no_signal.
  unfold call_in_handler.
  destruct (fails E s) as [e|].
  - exists (Raise e), []. intros w. rewrite draw_on_nil. reflexivity.
  - exists (Ok tt), [Text x y str f]. intros w. reflexivity.
Qed.

#[local] Hint Resolve draws_call draws_draw_text : draws.

Lemma draws_check_output s : draws (check_output cfg E s).
Proof. unfold check_output. repeat draws_step. Qed.

Lemma draws_draw_icon s x y key : draws (draw_icon cfg E s x y key).
Proof. unfold draw_icon. repeat draws_step. Qed.

#[local] Hint Resolve draws_check_output draws_draw_icon : draws.

Lemma draws_draw_line s y key str : draws (draw_line cfg E s y key str).
Proof. unfold draw_line. repeat draws_step. Qed.

#[local] Hint Resolve draws_draw_line : draws.

Lemma commits_bind {A} (m : action A) (k : A -> action unit) :
  draws m -> (forall a, commits (k a)) -> commits (mbind k m).
Proof.
  intros (r & ops & Hm) Hk. unfold mbind, action_bind, abind.
  destruct r as [a|e].
  - destruct (Hk a) as (r2 & ops2 & Hk2).
    exists r2, (ops ++ ops2). intros w. rewrite Hm.
    destruct (Hk2 (draw_on w ops)) as (H1 & H2 & H3 & H4 & H5).
    simpl in H4, H5. rewrite <- app_assoc in H4, H5.
    repeat split; assumption.
  - exists (Raise e), ops. intros w. rewrite Hm. simpl. auto.
Qed.

Lemma commits_image_show s1 s2 :
  commits (oled_image (call cfg E) s1;; oled_show (call cfg E) s2).
Proof.
  unfold oled_image, oled_show, mbind, action_bind, abind.
  rewrite !call_no_signal. unfold call_in_handler.
  destruct (fails E s1) as [e1|].
  - exists (Raise e1), []. intros w. simpl. rewrite app_nil_r. auto.
  - destruct (fails E s2) as [e2|].
    + exists (Raise e2), []. intros w. simpl. rewrite app_nil_r. auto.
    + exists (Ok tt), []. intros w. simpl. rewrite app_nil_r. auto.
Qed.

Ltac commits_step :=
  match goal with
  | |- commits (oled_image _ _;; oled_show _ _) => apply commits_image_show
  | |- commits (mbind _ _) => apply commits_bind; [solve [repeat draws_step]|intros ?]
  | |- commits (let '(_, _) := ?p in _) => destruct p
  | |- commits (if ?b then _ else _) => destruct b
  end.

Lemma commits_render info_type info_value :
  commits (render float format_f cfg E info_type info_value).
Proof. unfold render. repeat commits_step. Qed.

(** The call of [get_network_info] when no signal arrives: the facts for
    what the command printed or raised, and the world as it was. *)
Lemma get_network_info_call_no_signal w :
  get_network_info_call cfg E w =
    (Ok (get_network_info (HOSTNAME cfg)
           match fails E Ip179 with
           | Some e => Raise e
           | None => Ok (output E Ip179)
           end), w).
Proof.
  unfold get_network_info_call, check_output, mbind, action_bind, abind.
  rewrite call_no_signal. unfold call_in_handler.
  destruct (fails E Ip179); reflexivity.
Qed.

(** What a tick returns and the frame that it shows are fixed by the
    rotation state and by what the outside does, not by what the image,
    the buffer or the panel held before. *)
Lemma tick_body_frame (r0 : rotation) :
  exists r frame, forall w,
    rot w = r0 ->
    fst (tick_body float format_f cfg E w) = r /\
    slept (snd (tick_body float format_f cfg E w)) = slept w /\
    match r with
    | Ok _ =>
        image (snd (tick_body float format_f cfg E w)) = frame /\
        shown (snd (tick_body float format_f cfg E w)) = frame :: shown w
    | Raise _ => shown (snd (tick_body float format_f cfg E w)) = shown w
    end.
Proof.
  unfold tick_body, fill_black, mbind, action_bind, abind.
  rewrite call_no_signal. unfold call_in_handler.
  destruct (fails E Rect255) as [e|].
  { exists (Raise e), []. intros w _. simpl. auto. }
  set (facts := get_network_info (HOSTNAME cfg)
                  match fails E Ip179 with
                  | Some e => Raise e
                  | None => Ok (output E Ip179)
                  end).
  destruct (rotate (ROTATION_INTERVAL cfg) facts r0) as [r'|e] eqn:Hrot.
  2:{ exists (Raise e), []. intros w Hw. simpl.
      rewrite get_network_info_call_no_signal. fold facts.
      unfold get, lift. simpl. rewrite Hw, Hrot. simpl. auto. }
  destruct (current_info facts r') as [[info_type info_value]|e] eqn:Hcur.
  2:{ exists (Raise e), []. intros w Hw. simpl.
      rewrite get_network_info_call_no_signal. fold facts.
      unfold get, lift. simpl. rewrite Hw, Hrot. simpl. rewrite Hcur.
      simpl. auto. }
  destruct (commits_render info_type info_value) as (r & ops & Hrender).
  exists r, ops. intros w Hw. simpl.
  rewrite get_network_info_call_no_signal. fold facts.
  unfold get, lift. simpl. rewrite Hw, Hrot. simpl. rewrite Hcur. simpl.
  match goal with
  | |- context [render _ _ _ _ _ _ ?w1] =>
      destruct (Hrender w1) as (H1 & H2 & H3 & H4 & H5);
      destruct (render float format_f cfg E info_type info_value w1)
        as [res w2]
  end.
  simpl in *. subst r. destruct res as [[]|e]; simpl; auto.
Qed.

End Frames.

Lemma tick_body_shown (float : string -> result Q)
    (format_f : nat -> Q -> string) (cfg : config) (E : env) (w : world) :
  signal E = None ->
  match tick_body float format_f cfg E w with
  | (Ok _, w') => shown w' = image w' :: shown w
  | (Raise _, w') => shown w' = shown w
  end.
Proof.
  intros Hsig.
  destruct (tick_body_frame float format_f cfg E Hsig (rot w))
    as (r & frame & H).
  destruct (H w eq_refl) as (H1 & _ & H3).
  destruct (tick_body float format_f cfg E w) as [res w'].
  simpl in *. subst r. destruct res as [[]|e].
  - destruct H3 as [-> ->]. reflexivity.
  - exact H3.
Qed.

(** When no signal arrives, a tick that runs to its end has put exactly
    one new frame on the panel, the image as the tick drew it, and a tick
    that raised has put none: the panel keeps the frame of the last tick
    that succeeded. *)
Theorem tick_shows_one_frame_or_none (float : string -> result Q)
    (format_f : nat -> Q -> string) (cfg : config) (E : env) (w : world) :
  signal E = None ->
  match tick_body float format_f cfg E w with
  | (Ok _, w') => shown w' = image w' :: shown w
  | (Raise _, w') => shown w' = shown w
  end.
Proof. apply tick_body_shown. Qed.

Lemma tick_shows_one_frame_or_none_witness :
  match tick_body Fixtures.float Fixtures.format_f
          (Fixtures.default_config "pi" true)
          (Fixtures.failing Show357 OSError) world_init with
  | (Ok _, w') => shown w' = image w' :: shown world_init
  | (Raise _, w') => shown w' = shown world_init
  end.
Proof.
  apply (tick_shows_one_frame_or_none Fixtures.float Fixtures.format_f
           (Fixtures.default_config "pi" true)
           (Fixtures.failing Show357 OSError) world_init).
  reflexivity.
Defined.

(** No ghosting: when no signal arrives, two ticks that start from the
    same rotation state and meet the same outside return or raise the
    same, and when they return they have drawn the same image, whatever
    the image, the buffer and the panel held before each of them. *)
Theorem tick_frame_is_fresh (float : string -> result Q)
    (format_f : nat -> Q -> string) (cfg : config) (E : env) (w1 w2 : world) :
  signal E = None ->
  rot w1 = rot w2 ->
  fst (tick_body float format_f cfg E w1) =
    fst (tick_body float format_f cfg E w2) /\
  match fst (tick_body float format_f cfg E w1) with
  | Ok _ =>
      image (snd (tick_body float format_f cfg E w1)) =
        image (snd (tick_body float format_f cfg E w2))
  | Raise _ => True
  end.
Proof.
  intros Hsig Hrot.
  destruct (tick_body_frame float format_f cfg E Hsig (rot w2))
    as (r & frame & H).
  destruct (H w1 Hrot) as (H1 & _ & H3).
  destruct (H w2 eq_refl) as (H1' & _ & H3').
  rewrite H1, H1'. split; [reflexivity|].
  destruct r as [[]|e]; [|exact I].
  destruct H3 as [-> _]. destruct H3' as [-> _]. reflexivity.
Qed.

Lemma tick_frame_is_fresh_witness :
  fst (tick_body Fixtures.float Fixtures.format_f
         (Fixtures.default_config "pi" true) Fixtures.quiet world_init) =
    fst (tick_body Fixtures.float Fixtures.format_f
           (Fixtures.default_config "pi" true) Fixtures.quiet
           {| rot := rotation_init;
              image := [Text 3 5 "stale" font_large];
              oled_buffer := [Text 0 0 "old" font];
              shown := []; slept := [1%Q] |}) /\
  match fst (tick_body Fixtures.float Fixtures.format_f
               (Fixtures.default_config "pi" true) Fixtures.quiet world_init) with
  | Ok _ =>
      image (snd (tick_body Fixtures.float Fixtures.format_f
                    (Fixtures.default_config "pi" true) Fixtures.quiet
                    world_init)) =
        image (snd (tick_body Fixtures.float Fixtures.format_f
                      (Fixtures.default_config "pi" true) Fixtures.quiet
                      {| rot := rotation_init;
                         image := [Text 3 5 "stale" font_large];
                         oled_buffer := [Text 0 0 "old" font];
                         shown := []; slept := [1%Q] |}))
  | Raise _ => True
  end.
Proof.
  apply (tick_frame_is_fresh Fixtures.float Fixtures.format_f
           (Fixtures.default_config "pi" true) Fixtures.quiet); reflexivity.
Defined.

(** ** The frame without icons *)

(** Without the icon font, a tick in which nothing fails draws exactly
    five texts, all in the text font and none a glyph: the selected
    network value, the load, the memory line and the disk line at [x = 0]
    on the lines [y = 0, 16, 32, 48], and the temperature at [x = 80] on
    the load line. *)
Theorem text_only_frame (float : string -> result Q)
    (format_f : nat -> Q -> string) (cfg : config) (E : env) (w : world) :
  ICONS_AVAILABLE cfg = false ->
  signal E = None ->
  (forall s, fails E s = None) ->
  exists info_type info_value w',
    displayed_info (ROTATION_INTERVAL cfg)
      (get_network_info (HOSTNAME cfg) (Ok (output E Ip179))) (rot w) =
      Ok (info_type, info_value) /\
    tick_body float format_f cfg E w = (Ok tt, w') /\
    image w' =
      [Text 0 0 info_value font;
       Text 0 16 (format_f 2 (load_of float (output E Load272))) font;
       Text 80 16
         (format_f 0 (temp_of float (output E Temp279)) +:+ "C") font;
       Text 0 32
         (let '(used, total, percent) := mem_of float (output E Mem286) in
          used +:+ "/" +:+ total +:+ "GB " +:+ format_f 0 percent +:+ "%")
         font;
       Text 0 48
         (let '(used, total, percent) := disk_of float (output E Disk298) in
          used +:+ "/" +:+ total +:+ "GB " +:+ format_f 0 percent +:+ "%")
         font].
Proof.
  intros Hicons Hsig Hfails.
  set (facts := get_network_info (HOSTNAME cfg) (Ok (output E Ip179))).
  assert (facts <> []) as Hne.
  { destruct (get_network_info_cons (HOSTNAME cfg) (Ok (output E Ip179)))
      as [rest Hrest]. unfold facts. rewrite Hrest. discriminate. }
  assert (exists r', rotate (ROTATION_INTERVAL cfg) facts (rot w) = Ok r')
    as [r' Hrot].
  { unfold rotate. destruct (_ >=? _)%Z; [|eauto].
    rewrite (mod_nonempty _ _ Hne). simpl. eauto. }
  destruct (current_info_nonempty facts r' Hne)
    as ([info_type info_value] & Hcur & _).
  destruct (mem_of float (output E Mem286)) as [[mu mt] mp] eqn:Hmem.
  destruct (disk_of float (output E Disk298)) as [[du dt] dp] eqn:Hdisk.
  exists info_type, info_value. eexists.
  split; [unfold displayed_info; rewrite Hrot; exact Hcur|].
  unfold tick_body, render, fill_black, draw_line, draw_icon, draw_text,
    oled_image, oled_show, get_network_info_call, check_output,
    mbind, action_bind, abind.
  rewrite !(call_no_signal cfg E Hsig). unfold call_in_handler.
  rewrite Hicons, !Hfails. unfold get, lift.
  cbn -[get_network_info load_of temp_of mem_of disk_of rotate current_info
        String.append].
  fold facts. rewrite Hrot.
  cbn -[get_network_info load_of temp_of mem_of disk_of rotate current_info
        String.append].
  rewrite Hcur, Hmem, Hdisk.
  cbn -[load_of temp_of String.append].
  split; reflexivity.
Qed.

Lemma text_only_frame_witness :
  exists info_type info_value w',
    displayed_info 3 (get_network_info "pi-test" (Ok EmptyString))
      rotation_init = Ok (info_type, info_value) /\
    tick_body Fixtures.float Fixtures.format_f
      (Fixtures.default_config "pi-test" false) Fixtures.quiet world_init =
      (Ok tt, w') /\
    image w' =
      [Text 0 0 info_value font; Text 0 16 "0.42" font;
       Text 80 16 "45C" font; Text 0 32 "1.2/4.0GB 30%" font;
       Text 0 48 "5/32GB 16%" font].
Proof.
  apply (text_only_frame Fixtures.float Fixtures.format_f
           (Fixtures.default_config "pi-test" false) Fixtures.quiet
           world_init); reflexivity.
Defined.

(** ** The frame with icons *)

(** With the icon font, a tick in which nothing fails and whose five
    icon keys are all in the icon table draws ten texts: on each of the
    four lines the glyph at [x = 0] and the text right after it at
    [x = ICON_WIDTH]; the glyph of the temperature at [x = 75] on the load
    line and its text at [x = 75 + ICON_WIDTH].  The glyphs of the load,
    temperature, memory and disk are the ones of the keys that
    [get_icon_for_value] gives for the values and their thresholds. *)
Theorem icon_frame (float : string -> result Q)
    (format_f : nat -> Q -> string) (cfg : config) (E : env) (w : world)
    (g_load g_temp g_mem g_disk : string) :
  ICONS_AVAILABLE cfg = true ->
  signal E = None ->
  (forall s, fails E s = None) ->
  (forall f, In f (get_network_info (HOSTNAME cfg) (Ok (output E Ip179))) ->
             is_Some (ICONS cfg !! fst f)) ->
  ICONS cfg !! get_icon_for_value "load"
                 (load_of float (output E Load272)) (load_warn cfg) =
    Some g_load ->
  ICONS cfg !! get_icon_for_value "temp"
                 (temp_of float (output E Temp279)) (temp_warn cfg) =
    Some g_temp ->
  ICONS cfg !! get_icon_for_value "mem"
                 (snd (mem_of float (output E Mem286))) (mem_warn cfg) =
    Some g_mem ->
  ICONS cfg !! get_icon_for_value "disk"
                 (snd (disk_of float (output E Disk298))) (disk_warn cfg) =
    Some g_disk ->
  exists info_type info_value g_info w',
    displayed_info (ROTATION_INTERVAL cfg)
      (get_network_info (HOSTNAME cfg) (Ok (output E Ip179))) (rot w) =
      Ok (info_type, info_value) /\
    ICONS cfg !! info_type = Some g_info /\
    tick_body float format_f cfg E w = (Ok tt, w') /\
    image w' =
      [Text 0 0 g_info icon_font;
       Text (0 + ICON_WIDTH cfg) 0 info_value font;
       Text 0 16 g_load icon_font;
       Text (0 + ICON_WIDTH cfg) 16
         (format_f 2 (load_of float (output E Load272))) font;
       Text 75 16 g_temp icon_font;
       Text (75 + ICON_WIDTH cfg) 16
         (format_f 0 (temp_of float (output E Temp279)) +:+ "C") font;
       Text 0 32 g_mem icon_font;
       Text (0 + ICON_WIDTH cfg) 32
         (let '(used, total, percent) := mem_of float (output E Mem286) in
          used +:+ "/" +:+ total +:+ "GB " +:+ format_f 0 percent +:+ "%")
         font;
       Text 0 48 g_disk icon_font;
       Text (0 + ICON_WIDTH cfg) 48
         (let '(used, total, percent) := disk_of float (output E Disk298) in
          used +:+ "/" +:+ total +:+ "GB " +:+ format_f 0 percent +:+ "%")
         font].
Proof.
  intros Hicons Hsig Hfails Hkinds Hload Htemp Hmem Hdisk.
  set (facts := get_network_info (HOSTNAME cfg) (Ok (output E Ip179))) in *.
  assert (facts <> []) as Hne.
  { destruct (get_network_info_cons (HOSTNAME cfg) (Ok (output E Ip179)))
      as [rest Hrest]. unfold facts. rewrite Hrest. discriminate. }
  assert (exists r', rotate (ROTATION_INTERVAL cfg) facts (rot w) = Ok r')
    as [r' Hrot].
  { unfold rotate. destruct (_ >=? _)%Z; [|eauto].
    rewrite (mod_nonempty _ _ Hne). simpl. eauto. }
  destruct (current_info_nonempty facts r' Hne)
    as ([info_type info_value] & Hcur & Hnth & _).
  destruct (Hkinds (info_type, info_value)) as [g_info Hinfo].
  { eapply nth_error_In, Hnth. }
  simpl in Hinfo.
  destruct (mem_of float (output E Mem286)) as [[mu mt] mp] eqn:Hm.
  destruct (disk_of float (output E Disk298)) as [[du dt] dp] eqn:Hd.
  simpl in Hmem, Hdisk.
  exists info_type, info_value, g_info. eexists.
  split; [unfold displayed_info; rewrite Hrot; exact Hcur|].
  split; [exact Hinfo|].
  unfold tick_body, render, fill_black, draw_line, draw_icon, draw_text,
    oled_image, oled_show, get_network_info_call, check_output,
    mbind, action_bind, abind.
  rewrite !(call_no_signal cfg E Hsig). unfold call_in_handler.
  rewrite Hicons, !Hfails. unfold get, lift.
  cbn -[get_network_info load_of temp_of mem_of disk_of rotate current_info
        get_icon_for_value String.append lookup].
  fold facts. rewrite Hrot.
  cbn -[get_network_info load_of temp_of mem_of disk_of rotate current_info
        get_icon_for_value String.append lookup].
  rewrite Hcur, Hm, Hd, Hinfo, Hload, Htemp, Hmem, Hdisk.
  cbn -[load_of temp_of String.append].
  split; reflexivity.
Qed.

Lemma icon_frame_witness :
  exists info_type info_value g_info w',
    displayed_info 3 (get_network_info "pi-test" (Ok EmptyString))
      rotation_init = Ok (info_type, info_value) /\
    Fixtures.default_icons !! info_type = Some g_info /\
    tick_body Fixtures.float Fixtures.format_f
      (Fixtures.default_config "pi-test" true) Fixtures.quiet world_init =
      (Ok tt, w') /\
    image w' =
      [Text 0 0 g_info icon_font; Text 16 0 info_value font;
       Text 0 16 "l" icon_font; Text 16 16 "0.42" font;
       Text 75 16 "t" icon_font; Text 91 16 "45C" font;
       Text 0 32 "m" icon_font; Text 16 32 "1.2/4.0GB 30%" font;
       Text 0 48 "d" icon_font; Text 16 48 "5/32GB 16%" font].
Proof.
  apply (icon_frame Fixtures.float Fixtures.format_f
           (Fixtures.default_config "pi-test" true) Fixtures.quiet
           world_init "l" "t" "m" "d"); try reflexivity.
  intros f [<-|[]]. vm_compute. eauto.
Defined.

(** ** The configuration file *)

Section ConfigFile.

Import Config.

Lemma key_eqb_refl k : key_eqb k k = true.
Proof.
  destruct k as [|b|q|s]; simpl.
  - reflexivity.
  - apply Qeq_bool_iff. reflexivity.
  - apply Qeq_bool_iff. reflexivity.
  - apply String.eqb_refl.
Qed.

Lemma key_eqb_true a b :
  key_eqb a b = true ->
  (a = KNone /\ b = KNone) \/
  (exists s, a = KStr s /\ b = KStr s) \/
  (exists p q, key_num a = Some p /\ key_num b = Some q /\ (p == q)%Q).
Proof.
  destruct a as [|x|p|s], b as [|y|q|t]; simpl; try discriminate; intros H.
  - auto.
  - right. right. do 2 eexists. repeat split. apply Qeq_bool_iff, H.
  - right. right. do 2 eexists. repeat split. apply Qeq_bool_iff, H.
  - right. right. do 2 eexists. repeat split. apply Qeq_bool_iff, H.
  - right. right. do 2 eexists. repeat split. apply Qeq_bool_iff, H.
  - right. left. apply String.eqb_eq in H. subst. eauto.
Qed.

Lemma key_eqb_num a b p q :
  key_num a = Some p -> key_num b = Some q ->
  key_eqb a b = Qeq_bool p q.
Proof.
  destruct a as [|x|p'|s], b as [|y|q'|t]; simpl; try discriminate;
    intros [= <-] [= <-]; reflexivity.
Qed.

Lemma Qeq_bool_congr (p q r : Q) : (p == q)%Q -> Qeq_bool p r = Qeq_bool q r.
Proof.
  intros H. destruct (Qeq_bool q r) eqn:Hq.
  - apply Qeq_bool_iff. apply Qeq_bool_iff in Hq. rewrite H. exact Hq.
  - destruct (Qeq_bool p r) eqn:Hp; [|reflexivity].
    apply Qeq_bool_iff in Hp. rewrite H in Hp.
    apply Qeq_bool_iff in Hp. congruence.
Qed.

(** Keys that are equal find the same items. *)
Lemma key_eqb_congr a b c : key_eqb a b = true -> key_eqb a c = key_eqb b c.
Proof.
  intros H. destruct (key_eqb_true a b H)
    as [[-> ->] | [(s & -> & ->) | (p & q & Ha & Hb & Hpq)]];
    [reflexivity | reflexivity |].
  destruct (key_num c) as [r|] eqn:Hc.
  - rewrite (key_eqb_num a c p r Ha Hc), (key_eqb_num b c q r Hb Hc).
    apply Qeq_bool_congr, Hpq.
  - destruct a as [|x|p'|s], b as [|y|q'|t], c as [|z|r'|u];
      simpl in *; try discriminate; reflexivity.
Qed.

Lemma dict_get_set d k v k' :
  dict_get (dict_set d k v) k' =
    if key_eqb k k' then Some v else dict_get d k'.
Proof.
  induction d as [|[k0 v0] d IH]; simpl; [reflexivity|].
  destruct (key_eqb k0 k) eqn:H0; simpl.
  - rewrite (key_eqb_congr k0 k k' H0).
    destruct (key_eqb k k'); reflexivity.
  - rewrite IH. destruct (key_eqb k0 k') eqn:H0'; [|reflexivity].
    destruct (key_eqb k k') eqn:Hk; [|reflexivity].
    exfalso.
    assert (key_eqb k0 k = key_eqb k' k) as Heq by (apply key_eqb_congr, H0').
    assert (key_eqb k k = key_eqb k' k) as Heq' by (apply key_eqb_congr, Hk).
    rewrite key_eqb_refl in Heq'. congruence.
Qed.

Lemma dict_get_app a b k :
  dict_get (a ++ b) k =
    match dict_get a k with
    | Some v => Some v
    | None => dict_get b k
    end.
Proof.
  induction a as [|[k0 v0] a IH]; simpl; [reflexivity|].
  destruct (key_eqb k0 k); [reflexivity|exact IH].
Qed.

Lemma dict_get_fold items d k :
  dict_get (fold_left (fun acc kv => dict_set acc (fst kv) (snd kv)) items d) k =
    match dict_get (rev items) k with
    | Some v => Some v
    | None => dict_get d k
    end.
Proof.
  revert d. induction items as [|[k0 v0] items IH]; intros d; simpl;
    [reflexivity|].
  rewrite IH, dict_get_app, dict_get_set. simpl.
  destruct (dict_get (rev items) k); [reflexivity|].
  destruct (key_eqb k0 k); reflexivity.
Qed.

Lemma update_pairs_keeps items d d' k :
  update_pairs d items = Ok d' ->
  dict_get d k <> None -> dict_get d' k <> None.
Proof.
  revert d. induction items as [|item items IH]; intros d; simpl.
  - intros [= <-]. auto.
  - destruct (as_pair item) as [[a b]|e]; simpl; [|discriminate].
    destruct (as_key a) as [k0|e]; simpl; [|discriminate].
    intros H Hd. apply (IH _ H). rewrite dict_get_set.
    destruct (key_eqb k0 k); [discriminate|exact Hd].
Qed.

(** [update] never removes a key. *)
Lemma dict_update_keeps d other d' k :
  dict_update d other = Ok d' ->
  dict_get d k <> None -> dict_get d' k <> None.
Proof.
  destruct other as [|b|q|s|items|items]; simpl; try discriminate.
  - destruct s; [|discriminate]. intros [= <-]. auto.
  - apply update_pairs_keeps.
  - intros [= <-] Hd. rewrite dict_get_fold.
    destruct (dict_get (rev items) k); [discriminate|exact Hd].
Qed.

Lemma setting_cons name section rest s k :
  setting ((name, section) :: rest) s k =
    if String.eqb name s then subscript section k else setting rest s k.
Proof. unfold setting. simpl. destruct (String.eqb name s); reflexivity. Qed.

Lemma subscript_ok section k v :
  subscript section k = Ok v ->
  exists d, section = VDict d /\ dict_get d (KStr k) = Some v.
Proof.
  destruct section as [| | | | |d]; simpl; try discriminate.
  destruct (dict_get d (KStr k)) as [v'|] eqn:H; [|discriminate].
  intros [= <-]. eauto.
Qed.

(** One turn of the merge, read backwards. *)
Lemma merge_cons_inv user_config name section rest secs' :
  merge user_config ((name, section) :: rest) = Ok secs' ->
  exists present merged rest',
    contains user_config name = Ok present /\
    (if present : bool then
       match section with
       | VDict d =>
           other ← subscript user_config name;
           d' ← dict_update d other;
           Ok (VDict d')
       | _ => subscript user_config name
       end
     else Ok section) = Ok merged /\
    merge user_config rest = Ok rest' /\
    secs' = (name, merged) :: rest'.
Proof.
  cbn [merge]. unfold mbind, result_bind.
  destruct (contains user_config name) as [present|e]; [|discriminate].
  cbn [Py.bind].
  match goal with
  | |- Py.bind ?X _ = _ -> _ => destruct X as [merged|e] eqn:Hm
  end; [|discriminate].
  cbn [Py.bind].
  destruct (merge user_config rest) as [rest'|e]; [|discriminate].
  cbn [Py.bind]. intros [= <-].
  exists present, merged, rest'. auto.
Qed.

Lemma merge_keeps user_config secs secs' s k v :
  merge user_config secs = Ok secs' ->
  setting secs s k = Ok v ->
  exists v', setting secs' s k = Ok v'.
Proof.
  revert secs'. induction secs as [|[name section] rest IH]; intros secs'.
  - intros _ H. discriminate H.
  - intros Hmerge.
    destruct (merge_cons_inv _ _ _ _ _ Hmerge)
      as (present & merged & rest' & _ & Hm & Hrest & ->).
    rewrite !setting_cons.
    destruct (String.eqb name s); [|apply IH; exact Hrest].
    intros Hsub. destruct (subscript_ok _ _ _ Hsub) as (d & -> & Hd).
    destruct present.
    + destruct (subscript user_config name) as [other|e]; [|discriminate].
      simpl in Hm. destruct (dict_update d other) as [d'|e] eqn:Hu;
        [|discriminate].
      injection Hm as <-. simpl.
      pose proof (dict_update_keeps d other d' (KStr k) Hu) as Hk.
      rewrite Hd in Hk.
      destruct (dict_get d' (KStr k)) as [v'|]; [eauto|].
      exfalso. apply Hk; [discriminate|reflexivity].
    + injection Hm as <-. simpl. rewrite Hd. eauto.
Qed.

Lemma load_config_keeps file config s k v :
  load_config file = Ok config ->
  setting default_config s k = Ok v ->
  exists v', setting config s k = Ok v'.
Proof.
  destruct file as [| |e|user_config]; cbn [load_config].
  - intros [= <-]. eauto.
  - intros [= <-]. eauto.
  - discriminate.
  - apply merge_keeps.
Qed.

End ConfigFile.

(** No setting of the defaults is ever lost: whatever file is loaded, a
    [config[section][name]] that is there in [default_config] is there
    in the configuration that [load_config] returns, so no read of a
    default setting raises [KeyError]. *)
Theorem config_keeps_default_settings (file : Config.config_file)
    (config : Config.sections) (section name : string) (v : Config.value) :
  Config.load_config file = Ok config ->
  Config.setting Config.default_config section name = Ok v ->
  exists v', Config.setting config section name = Ok v'.
Proof. apply load_config_keeps. Qed.

Lemma config_keeps_default_settings_witness :
  exists v', Config.setting sample_config "timing" "refresh_interval" = Ok v'.
Proof.
  apply (config_keeps_default_settings sample_config_file sample_config
           "timing" "refresh_interval" (Config.VNum 1)); reflexivity.
Defined.

Section ConfigMerge.

Import Config.

Lemma contains_dict items name :
  contains (VDict items) name =
    Ok (match dict_get items (KStr name) with Some _ => true | None => false end).
Proof. reflexivity. Qed.

(** The merge over sections that are dictionaries, for a user's file
    that is an object whose known sections are objects. *)
Lemma merge_objects user_items secs :
  (forall name section, In (name, section) secs -> exists d, section = VDict d) ->
  (forall name v, In name (map fst secs) ->
     dict_get user_items (KStr name) = Some v -> exists items, v = VDict items) ->
  exists secs',
    merge (VDict user_items) secs = Ok secs' /\
    forall s k, In s (map fst secs) ->
      setting secs' s k =
        match user_setting user_items s k with
        | Some v => Ok v
        | None => setting secs s k
        end.
Proof.
  induction secs as [|[name section] rest IH]; intros Hdicts Huser.
  - exists []. split; [reflexivity|]. intros s k [].
  - destruct IH as (rest' & Hrest & Hlookup).
    { intros n sec Hin. apply (Hdicts n sec). right. exact Hin. }
    { intros n v Hin. apply Huser. right. exact Hin. }
    destruct (Hdicts name section (or_introl eq_refl)) as [d ->].
    cbn [merge]. rewrite contains_dict. unfold mbind, result_bind.
    cbn [Py.bind]. unfold subscript at 1.
    destruct (dict_get user_items (KStr name)) as [v|] eqn:Hu.
    + destruct (Huser name v (or_introl eq_refl) Hu) as [items ->].
      cbn [Py.bind dict_update]. rewrite Hrest. cbn [Py.bind].
      eexists. split; [reflexivity|].
      intros s k Hin. rewrite !setting_cons.
      destruct (String.eqb_spec name s) as [->|Hne].
      * unfold user_setting. rewrite Hu. simpl. rewrite dict_get_fold.
        destruct (dict_get (rev items) (KStr k)); reflexivity.
      * apply Hlookup. destruct Hin as [Hin|Hin]; [simpl in Hin; congruence|].
        exact Hin.
    + cbn [Py.bind]. rewrite Hrest. cbn [Py.bind].
      eexists. split; [reflexivity|].
      intros s k Hin. rewrite !setting_cons.
      destruct (String.eqb_spec name s) as [->|Hne].
      * unfold user_setting. rewrite Hu. reflexivity.
      * apply Hlookup. destruct Hin as [Hin|Hin]; [simpl in Hin; congruence|].
        exact Hin.
Qed.

(** The merge looks at the user's file through its known sections only. *)
Lemma merge_ext u1 u2 secs :
  (forall s, In s (map fst secs) ->
     dict_get u1 (KStr s) = dict_get u2 (KStr s)) ->
  merge (VDict u1) secs = merge (VDict u2) secs.
Proof.
  induction secs as [|[name section] rest IH]; intros H; [reflexivity|].
  cbn [merge]. rewrite !contains_dict. unfold subscript.
  rewrite (H name (or_introl eq_refl)).
  rewrite IH; [reflexivity|]. intros s Hin. apply H. right. exact Hin.
Qed.

Lemma merge_not_a_mapping user_items secs s v :
  (forall name section, In (name, section) secs -> exists d, section = VDict d) ->
  In s (map fst secs) ->
  dict_get user_items (KStr s) = Some v ->
  not_a_mapping v ->
  exists e, merge (VDict user_items) secs = Raise e.
Proof.
  intros Hdicts Hin Hu Hv.
  induction secs as [|[name section] rest IH]; [destruct Hin|].
  destruct (Hdicts name section (or_introl eq_refl)) as [d ->].
  cbn [merge]. rewrite contains_dict. unfold mbind, result_bind.
  cbn [Py.bind]. unfold subscript at 1.
  destruct (String.eqb_spec name s) as [->|Hne].
  - rewrite Hu. cbn [Py.bind].
    destruct v as [|b|q|str|items|items]; simpl in Hv; try contradiction;
      try (simpl; eauto).
    destruct str; [congruence|]. simpl. eauto.
  - destruct IH as [e He].
    { intros n sec Hin'. apply (Hdicts n sec). right. exact Hin'. }
    { destruct Hin as [Hin|Hin]; [simpl in Hin; congruence|exact Hin]. }
    destruct (dict_get user_items (KStr name)) as [other|]; cbn [Py.bind].
    + destruct (dict_update d other) as [d'|e']; cbn [Py.bind]; [|eauto].
      rewrite He. simpl. eauto.
    + rewrite He. simpl. eauto.
Qed.

Lemma default_sections_are_dicts name section :
  In (name, section) default_config -> exists d, section = VDict d.
Proof.
  intros H. repeat (destruct H as [[= <- <-]|H]; [eauto|]). destruct H.
Qed.

End ConfigMerge.

(** For a file that holds an object whose known sections are objects,
    [load_config] returns a configuration in which every setting of a
    known section is the user's when the user's section has it, and the
    default otherwise; a setting that only the user's section has is
    there as well. *)
Theorem config_merge_lookup (user_items : Config.dict) :
  (forall section v, In section Config.section_names ->
     Config.dict_get user_items (Config.KStr section) = Some v ->
     exists items, v = Config.VDict items) ->
  exists config,
    Config.load_config (Config.Parsed (Config.VDict user_items)) = Ok config /\
    forall section name, In section Config.section_names ->
      Config.setting config section name =
        match Config.user_setting user_items section name with
        | Some v => Ok v
        | None => Config.setting Config.default_config section name
        end.
Proof.
  intros H. apply merge_objects; [apply default_sections_are_dicts|exact H].
Qed.

Lemma config_merge_lookup_witness :
  exists config,
    Config.load_config sample_config_file = Ok config /\
    forall section name, In section Config.section_names ->
      Config.setting config section name =
        match Config.user_setting
                [Config.text "timing"
                   (Config.VDict
                      [Config.text "rotation_interval" (Config.VNum 5);
                       Config.text "comment" (Config.VStr "slow")]);
                 Config.text "colours" (Config.VList [Config.VStr "red"])]
                section name with
        | Some v => Ok v
        | None => Config.setting Config.default_config section name
        end.
Proof.
  apply (config_merge_lookup
           [Config.text "timing"
              (Config.VDict
                 [Config.text "rotation_interval" (Config.VNum 5);
                  Config.text "comment" (Config.VStr "slow")]);
            Config.text "colours" (Config.VList [Config.VStr "red"])]).
  intros section v Hin.
  repeat (destruct Hin as [<-|Hin]; [intros [= <-]; eauto|]).
  destruct Hin.
Defined.

(** A known section that the file gives as [null], a boolean, a number
    or a non-empty string makes [load_config] raise, out of the function:
    the defaults are not used in its place. *)
Theorem config_section_not_a_mapping (user_items : Config.dict)
    (section : string) (v : Config.value) :
  In section Config.section_names ->
  Config.dict_get user_items (Config.KStr section) = Some v ->
  Config.not_a_mapping v ->
  exists e,
    Config.load_config (Config.Parsed (Config.VDict user_items)) = Raise e.
Proof.
  intros Hin Hu Hv. cbn [Config.load_config].
  apply (merge_not_a_mapping user_items Config.default_config section v).
  - apply default_sections_are_dicts.
  - exact Hin.
  - exact Hu.
  - exact Hv.
Qed.

Lemma config_section_not_a_mapping_witness :
  exists e,
    Config.load_config
      (Config.Parsed
         (Config.VDict [Config.text "thresholds" (Config.VNum 80)])) = Raise e.
Proof.
  apply (config_section_not_a_mapping
           [Config.text "thresholds" (Config.VNum 80)] "thresholds"
           (Config.VNum 80)).
  - simpl. tauto.
  - reflexivity.
  - exact I.
Defined.

(** [load_config] reads the file through its five known sections only:
    two objects that agree on them give the same result, whatever else
    they hold at the top level. *)
Theorem config_reads_known_sections_only (u1 u2 : Config.dict) :
  (forall section, In section Config.section_names ->
     Config.dict_get u1 (Config.KStr section) =
     Config.dict_get u2 (Config.KStr section)) ->
  Config.load_config (Config.Parsed (Config.VDict u1)) =
  Config.load_config (Config.Parsed (Config.VDict u2)).
Proof. intros H. cbn [Config.load_config]. apply merge_ext, H. Qed.

Lemma config_reads_known_sections_only_witness :
  Config.load_config
    (Config.Parsed
       (Config.VDict
          [Config.text "colours" (Config.VNum 3);
           Config.text "timing"
             (Config.VDict [Config.text "refresh_interval" (Config.VNum 2)])])) =
  Config.load_config
    (Config.Parsed
       (Config.VDict
          [Config.text "timing"
             (Config.VDict [Config.text "refresh_interval" (Config.VNum 2)]);
           Config.text "units" (Config.VStr "metric")])).
Proof.
  apply config_reads_known_sections_only.
  intros section Hin.
  repeat (destruct Hin as [<-|Hin]; [reflexivity|]). destruct Hin.
Defined.

(** A file that holds an object without any of the known sections
    counts as no file at all: [load_config] returns the defaults, as it
    does for a missing file and for a file that is not JSON. *)
Theorem config_without_known_sections (user_items : Config.dict) :
  (forall section, In section Config.section_names ->
     Config.dict_get user_items (Config.KStr section) = None) ->
  Config.load_config (Config.Parsed (Config.VDict user_items)) =
    Ok Config.default_config /\
  Config.load_config Config.NotFound = Ok Config.default_config /\
  Config.load_config Config.Malformed = Ok Config.default_config.
Proof.
  intros H. split; [|split; reflexivity].
  cbn [Config.load_config].
  rewrite (merge_ext user_items [] Config.default_config); [reflexivity|].
  intros section Hin. rewrite (H section Hin). reflexivity.
Qed.

Lemma config_without_known_sections_witness :
  Config.load_config
    (Config.Parsed (Config.VDict [Config.text "colours" (Config.VNum 3)])) =
    Ok Config.default_config /\
  Config.load_config Config.NotFound = Ok Config.default_config /\
  Config.load_config Config.Malformed = Ok Config.default_config.
Proof.
  apply (config_without_known_sections [Config.text "colours" (Config.VNum 3)]).
  intros section Hin.
  repeat (destruct Hin as [<-|Hin]; [reflexivity|]). destruct Hin.
Defined.

Lemma network_fact_kind hostname cmd (f : fact) :
  In f (get_network_info hostname cmd) ->
  fst f = "hostname" \/ fst f = "lan" \/ fst f = "wifi".
Proof.
  destruct cmd as [raw|e]; simpl.
  - intros [<-|Hin]; [auto|].
    apply in_flat_map in Hin as (line & _ & Hin).
    pose proof (line_facts_kinds line) as Hk.
    rewrite Forall_forall in Hk.
    destruct (Hk f) as [[H|H] _]; auto.
    apply list_elem_of_In, Hin.
  - intros [<-|[]]. auto.
Qed.

(** Whatever file is loaded, every icon key that the program asks for is
    in the icon table of the configuration: the key that
    [get_icon_for_value] gives for the load, the temperature, the memory
    and the disk, whatever the value and the threshold; the kind of every
    fact of [get_network_info]; and the key of the farewell glyph.  A
    user's file can change these glyphs and add others; it cannot take
    one away. *)
Theorem config_icon_keys_always_mapped (file : Config.config_file)
    (config : Config.sections) :
  Config.load_config file = Ok config ->
  (forall base value threshold, In base ["load"; "temp"; "mem"; "disk"] ->
     exists g, Config.setting config "icons"
                 (get_icon_for_value base value threshold) = Ok g) /\
  (forall hostname cmd f, In f (get_network_info hostname cmd) ->
     exists g, Config.setting config "icons" (fst f) = Ok g) /\
  exists g, Config.setting config "icons" "offline" = Ok g.
Proof.
  intros Hload.
  assert (forall name v,
            Config.setting Config.default_config "icons" name = Ok v ->
            exists g, Config.setting config "icons" name = Ok g) as Hkeep.
  { intros name v. apply (load_config_keeps file config "icons" name v Hload). }
  split; [|split].
  - intros base value threshold Hin. unfold get_icon_for_value.
    destruct (ge value threshold);
      repeat (destruct Hin as [<-|Hin]; [eapply Hkeep; reflexivity|]);
      destruct Hin.
  - intros hostname cmd f Hin.
    destruct (network_fact_kind hostname cmd f Hin) as [->|[->| ->]];
      eapply Hkeep; reflexivity.
  - eapply Hkeep. reflexivity.
Qed.

Lemma config_icon_keys_always_mapped_witness :
  (forall base value threshold, In base ["load"; "temp"; "mem"; "disk"] ->
     exists g, Config.setting sample_config "icons"
                 (get_icon_for_value base value threshold) = Ok g) /\
  (forall hostname cmd f, In f (get_network_info hostname cmd) ->
     exists g, Config.setting sample_config "icons" (fst f) = Ok g) /\
  exists g, Config.setting sample_config "icons" "offline" = Ok g.
Proof.
  apply (config_icon_keys_always_mapped sample_config_file sample_config).
  reflexivity.
Defined.

(** ** A negative refresh interval *)

(** With a negative refresh interval the daemon does not survive its
    first iteration: the tick runs, whatever it raised is swallowed, and
    [time.sleep] raises [ValueError] outside the [try], which ends the
    process with a traceback. *)
Theorem negative_refresh_interval_is_fatal (float : string -> result Q)
    (format_f : nat -> Q -> string) (cfg : config) (E : env)
    (Es : list env) (w : world) :
  (LOOPTIME cfg < 0)%Q ->
  ordinary E ->
  exists w',
    main_loop float format_f cfg (E :: Es) w = Traceback ValueError w' /\
    slept w' = slept w.
Proof.
  intros Hneg HE. cbn [main_loop]. unfold iteration, sleep, try_.
  assert (Qle_bool 0 (LOOPTIME cfg) = false) as ->.
  { destruct (Qle_bool 0 (LOOPTIME cfg)) eqn:H; [|reflexivity].
    apply Qle_bool_iff in H. exfalso. apply (Qlt_not_le _ _ Hneg H). }
  unfold mbind, action_bind, abind, araise.
  destruct (contained_tick_body float format_f cfg E HE w) as [Hs Hr].
  destruct (tick_body float format_f cfg E w) as [[[]|e] w1]; simpl in *.
  - eauto.
  - rewrite Hr. simpl. eauto.
Qed.

Lemma negative_refresh_interval_is_fatal_witness :
  exists w',
    main_loop Fixtures.float Fixtures.format_f
      {| ROTATION_INTERVAL := 3; LOOPTIME := -1; HOSTNAME := "pi";
         ICONS_AVAILABLE := false; ICONS := Fixtures.default_icons;
         ICON_WIDTH := 0; ICON_WIDTH_LARGE := 26;
         load_warn := 2; temp_warn := 70; mem_warn := 80; disk_warn := 80 |}
      [Fixtures.quiet; Fixtures.quiet] world_init = Traceback ValueError w' /\
    slept w' = slept world_init.
Proof.
  apply (negative_refresh_interval_is_fatal Fixtures.float Fixtures.format_f
           _ Fixtures.quiet [Fixtures.quiet] world_init).
  - reflexivity.
  - split; [reflexivity|]. intros s e [=].
Defined.

(** ** The rotation over the iterations of the loop *)

Lemma returns_ret {A} (a : A) : returns (mret a : action A).
Proof. intros w. exists a, w. auto. Qed.

Lemma returns_bind {A B} (m : action A) (k : A -> action B) :
  returns m -> (forall a, returns (k a)) -> returns (mbind k m).
Proof.
  intros Hm Hk w. unfold mbind, action_bind, abind.
  destruct (Hm w) as (a & w1 & -> & Hr1).
  destruct (Hk a w1) as (b & w2 & -> & Hr2).
  exists b, w2. split; [reflexivity|congruence].
Qed.

Lemma returns_get {A} (f : world -> A) : returns (get f).
Proof. intros w. exists (f w), w. auto. Qed.

Lemma returns_set_image c : returns (set_image c).
Proof. intros w. eexists _, _. split; reflexivity. Qed.

Lemma returns_set_buffer c : returns (set_buffer c).
Proof. intros w. eexists _, _. split; reflexivity. Qed.

Lemma returns_push_shown c : returns (push_shown c).
Proof. intros w. eexists _, _. split; reflexivity. Qed.

Create HintDb returns.

#[local] Hint Resolve returns_ret returns_get returns_set_image
  returns_set_buffer returns_push_shown : returns.

Ltac returns_step :=
  match goal with
  | |- returns (mbind _ _) => apply returns_bind; [|intros ?]
  | |- returns (aret _) => apply (returns_ret (A:=_))
  | |- returns (let '(_, _) := ?p in _) => destruct p
  | |- returns (if ?b then _ else _) => destruct b
  | |- returns (match ?x with _ => _ end) => destruct x
  | |- _ => solve [eauto with returns]
  end.

Section CalmIteration.

Variable float : string -> result Q.
Variable format_f : nat -> Q -> string.
Variable cfg : config.
Variable E : env.
Variable out : string.
Hypothesis Hcalm : calm out E.

Lemma returns_call s : returns (call cfg E s).
Proof.
  destruct Hcalm as (Hsig & Hfails & _).
  rewrite (call_no_signal cfg E Hsig). unfold call_in_handler.
  rewrite Hfails. intros w. exists tt, w. auto.
Qed.

#[local] Hint Resolve returns_call : returns.

Lemma returns_draw_text s x y str f :
  returns (draw_text (call cfg E) s x y str f).
Proof. unfold draw_text. repeat returns_step. Qed.

Lemma returns_check_output s : returns (check_output cfg E s).
Proof. unfold check_output. repeat returns_step. Qed.

#[local] Hint Resolve returns_draw_text returns_check_output : returns.

Lemma returns_draw_icon s x y key : returns (draw_icon cfg E s x y key).
Proof. unfold draw_icon. repeat returns_step. Qed.

#[local] Hint Resolve returns_draw_icon : returns.

Lemma returns_draw_line s y key str : returns (draw_line cfg E s y key str).
Proof. unfold draw_line. repeat returns_step. Qed.

#[local] Hint Resolve returns_draw_line : returns.

Lemma returns_render info_type info_value :
  returns (render float format_f cfg E info_type info_value).
Proof. unfold render, oled_image, oled_show. repeat returns_step. Qed.

(** A calm tick runs to its end, and does to the two globals what
    [rotation_tick] does for the facts of the text [out]. *)
Lemma calm_tick_body w :
  exists w',
    tick_body float format_f cfg E w = (Ok tt, w') /\
    rotation_tick (ROTATION_INTERVAL cfg)
      (get_network_info (HOSTNAME cfg) (Ok out)) (rot w) = Ok (rot w').
Proof.
  destruct Hcalm as (Hsig & Hfails & Hout).
  set (facts := get_network_info (HOSTNAME cfg) (Ok out)).
  assert (facts <> []) as Hne.
  { destruct (get_network_info_cons (HOSTNAME cfg) (Ok out)) as [rest Hrest].
    unfold facts. rewrite Hrest. discriminate. }
  assert (exists r', rotate (ROTATION_INTERVAL cfg) facts (rot w) = Ok r')
    as [r' Hrot].
  { unfold rotate. destruct (_ >=? _)%Z; [|eauto].
    rewrite (mod_nonempty _ _ Hne). simpl. eauto. }
  destruct (current_info_nonempty facts r' Hne)
    as ([info_type info_value] & Hcur & _).
  unfold rotation_tick. rewrite Hrot.
  unfold tick_body, fill_black, mbind, action_bind, abind.
  rewrite (call_no_signal cfg E Hsig). unfold call_in_handler.
  rewrite Hfails. cbn [set_image].
  rewrite (get_network_info_call_no_signal cfg E Hsig), Hfails, Hout.
  fold facts. unfold get, lift. cbn [rot]. rewrite Hrot.
  cbn [set_rot]. rewrite Hcur.
  match goal with
  | |- context [render _ _ _ _ _ _ ?w1] =>
      destruct (returns_render info_type info_value w1)
        as ([] & w2 & -> & Hr2)
  end.
  cbn [rot] in Hr2. eexists. split; [reflexivity|].
  cbn [rot]. rewrite Hr2. reflexivity.
Qed.

End CalmIteration.

Lemma repeat_shift {A} (x : A) n (l : list A) :
  repeat x n ++ x :: l = repeat x (S n) ++ l.
Proof. induction n as [|n IH]; simpl; [reflexivity|]. rewrite IH. reflexivity. Qed.

(** Over calm iterations that all see the same enumeration, the loop
    keeps running, shows one frame and sleeps once in each of them, and
    takes the two globals of the rotation through [rotation_ticks]: the
    rotation of the loop is the rotation scheduler, tick for tick. *)
Theorem calm_loop_rotation (float : string -> result Q)
    (format_f : nat -> Q -> string) (cfg : config) (out : string)
    (Es : list env) (w : world) :
  (0 <= LOOPTIME cfg)%Q ->
  Forall (calm out) Es ->
  exists w',
    main_loop float format_f cfg Es w = Running w' /\
    rotation_ticks (length Es) (ROTATION_INTERVAL cfg)
      (get_network_info (HOSTNAME cfg) (Ok out)) (rot w) = Ok (rot w') /\
    length (shown w') = (length Es + length (shown w))%nat /\
    slept w' = repeat (LOOPTIME cfg) (length Es) ++ slept w.
Proof.
  intros Hpos HEs. revert w.
  pose proof (fun E => calm_tick_body float format_f cfg E out) as Hcalm_tick.
  set (facts := get_network_info (HOSTNAME cfg) (Ok out)) in *.
  clearbody facts.
  induction HEs as [|E Es HE HEs IH]; intros w.
  - exists w. repeat split.
  - destruct (Hcalm_tick E HE w) as (w1 & Htick & Hrot).
    pose proof HE as (Hsig & Hfails & _).
    pose proof (tick_body_shown float format_f cfg E w Hsig)
      as Hshown.
    rewrite Htick in Hshown.
    assert (ordinary E) as Hord.
    { split; [exact Hsig|]. intros s e. rewrite Hfails. discriminate. }
    destruct (contained_tick_body float format_f cfg E Hord w) as [Hslept _].
    rewrite Htick in Hslept. simpl in Hslept.
    cbn [main_loop]. unfold iteration, sleep, try_, mbind, action_bind, abind.
    rewrite Htick. simpl.
    pose proof Hpos as Hpos'. apply Qle_bool_iff in Hpos'. rewrite Hpos', Hsig.
    destruct (decide (None = Some Sleep365)); [discriminate|].
    cbn [push_slept].
    match goal with
    | |- context [main_loop _ _ _ Es ?w2] => destruct (IH w2)
        as (w' & Hloop & Hticks & Hlen & Hsl)
    end.
    exists w'. split; [exact Hloop|].
    cbn [rot shown slept length] in *.
    split; [|split].
    + cbn [rotation_ticks]. rewrite Hrot. simpl. exact Hticks.
    + rewrite Hlen, Hshown. simpl. lia.
    + rewrite Hsl, Hslept. apply repeat_shift.
Qed.

Lemma calm_loop_rotation_witness :
  exists w',
    main_loop Fixtures.float Fixtures.format_f
      (Fixtures.default_config "pi" true)
      [Fixtures.quiet; Fixtures.quiet; Fixtures.quiet; Fixtures.quiet]
      world_init = Running w' /\
    rotation_ticks 4 3 (get_network_info "pi" (Ok EmptyString))
      (rot world_init) = Ok (rot w') /\
    length (shown w') = (4 + length (shown world_init))%nat /\
    slept w' = repeat 1%Q 4 ++ slept world_init.
Proof.
  apply (calm_loop_rotation Fixtures.float Fixtures.format_f
           (Fixtures.default_config "pi" true) EmptyString
           [Fixtures.quiet; Fixtures.quiet; Fixtures.quiet; Fixtures.quiet]
           world_init).
  - discriminate.
  - repeat (apply List.Forall_cons; [repeat split|]). apply List.Forall_nil.
Defined.
